(** * jenkins-builder: a shallow embedding of [jenkins-builder.c]

    The program reads a credentials file, parses two JSON string fields,
    builds one URL per project named in [PROJECTS] and POSTs to each of them.

    Conventions of the embedding.
    - A [char] is an [ascii]; a [char*] is modelled by the bytes stored from
      the pointer on (its memory image).  The C string that such a pointer
      denotes is [c_str]: the bytes before the first NUL.
    - A nullable pointer is an [option].
    - Functions whose C counterpart can leave defined behaviour (a write past
      a buffer, a NULL handed to [strdup]) or that iterate on fuel return in
      [exec]; the theorems show that [Stuck] is never reached.
    - What the program gets from outside (environment, file system, heap,
      json-c, libcurl and the network behind it) is a parameter. *)

From Stdlib Require Import Ascii String.
From Stdlib Require Import List ZArith Lia Bool Arith.
Import ListNotations.

Set Warnings "-register-all".

(** ** Executions *)

Inductive fault : Type :=
| Overrun      (* write outside an allocated buffer *)
| NullDeref    (* a NULL pointer read as a string *)
| OutOfFuel.   (* the loop model ran out of steps *)

Inductive exec (A : Type) : Type :=
| Ret (a : A)
| Stuck (f : fault).

Arguments Ret {A} a.
Arguments Stuck {A} f.

Definition bind {A B : Type} (m : exec A) (k : A -> exec B) : exec B :=
  match m with
  | Ret a => k a
  | Stuck f => Stuck f
  end.

Notation "x <- m ;; k" := (bind m (fun x => k))
  (at level 61, m at next level, right associativity).

(** ** C strings and the <string.h> functions the program calls *)

Module CString.

Definition char : Type := ascii.

Definition NUL : char := Ascii.zero.

Definition is_nul (c : char) : bool := Ascii.eqb c NUL.

(** The string a [char*] denotes: everything before the first NUL. *)
Fixpoint c_str (m : list char) : list char :=
  match m with
  | [] => []
  | c :: m' => if is_nul c then [] else c :: c_str m'
  end.

Definition strlen (m : list char) : nat := length (c_str m).

Definition nul_free (m : list char) : bool :=
  forallb (fun c => negb (is_nul c)) m.

(** A string literal of the source, as its bytes. *)
Definition lit (s : string) : list char := list_ascii_of_string s.

Fixpoint str_eqb (a b : list char) : bool :=
  match a, b with
  | [], [] => true
  | x :: a', y :: b' => Ascii.eqb x y && str_eqb a' b'
  | _, _ => false
  end.

(** [strcmp(a, b) == 0] *)
Definition strcmp_eq (a b : list char) : bool := str_eqb (c_str a) (c_str b).

Definition memset (m : list char) (c : char) (n : nat) : list char :=
  repeat c (Nat.min n (length m)) ++ skipn n m.

(** [strcat(dest, src)]: the bytes of [src] and a terminator are written over
    [dest] from its first NUL on.  [dest] must hold a NUL and have room. *)
Definition strcat (dest src : list char) : exec (list char) :=
  let n := strlen dest in
  let s := c_str src ++ [NUL] in
  if existsb is_nul dest && (n + length s <=? length dest)
  then Ret (firstn n dest ++ s ++ skipn (n + length s) dest)
  else Stuck Overrun.

Definition mem (c : char) (set : list char) : bool :=
  existsb (Ascii.eqb c) set.

Fixpoint strspn (s accept : list char) : nat :=
  match s with
  | [] => 0
  | c :: s' => if mem c accept then S (strspn s' accept) else 0
  end.

Fixpoint strcspn (s reject : list char) : nat :=
  match s with
  | [] => 0
  | c :: s' => if mem c reject then 0 else S (strcspn s' reject)
  end.

(** [strtok_r(str, delim, &saveptr)] on NUL-free contents; the result is the
    token (NULL when none is left) and the new value of [saveptr]. *)
Definition strtok_r (str : option (list char)) (delim saveptr : list char)
  : option (list char) * list char :=
  let s := match str with Some s => s | None => saveptr end in
  match s with
  | [] => (None, s)
  | _ :: _ =>
    let s := skipn (strspn s delim) s in
    match s with
    | [] => (None, s)
    | _ :: _ =>
      let n := strcspn s delim in
      match skipn n s with
      | [] => (Some s, [])
      | _ :: rest => (Some (firstn n s), rest)
      end
    end
  end.

End CString.

Import CString.

Definition is_NULL {A : Type} (p : option A) : bool :=
  match p with
  | None => true
  | Some _ => false
  end.

(** ** The heap *)

Record Heap : Type := {
  malloc_ok : nat -> bool;        (* does an allocation of this size succeed *)
  junk : nat -> nat -> char       (* what fresh memory of this size holds *)
}.

Definition malloc (h : Heap) (size : nat) : option (list char) :=
  if malloc_ok h size then Some (map (junk h size) (seq 0 size)) else None.

Definition strdup (h : Heap) (s : option (list char)) : exec (option (list char)) :=
  match s with
  | None => Stuck NullDeref
  | Some m => if malloc_ok h (strlen m + 1) then Ret (Some (c_str m)) else Ret None
  end.

(** ** get_project_url_owned *)

Definition get_project_url_owned (h : Heap) (jenkins_url project : list char)
  : exec (option (list char)) :=
  let job := lit "/job/"%string in
  let build := lit "/build"%string in
  let url_length :=
    strlen jenkins_url + strlen job + strlen project + strlen build + 1 in
  match malloc h url_length with
  | None => Ret None
  | Some url =>
    let url := memset url NUL url_length in
    url <- strcat url jenkins_url ;;
    url <- strcat url job ;;
    url <- strcat url project ;;
    url <- strcat url build ;;
    Ret (Some url)
  end.

(** ** json-c: the part of its interface the program uses *)

Module Json.

Inductive json_type : Type :=
| json_type_null
| json_type_boolean
| json_type_double
| json_type_int
| json_type_object
| json_type_array
| json_type_string.

Definition json_type_eqb (a b : json_type) : bool :=
  match a, b with
  | json_type_null, json_type_null
  | json_type_boolean, json_type_boolean
  | json_type_double, json_type_double
  | json_type_int, json_type_int
  | json_type_object, json_type_object
  | json_type_array, json_type_array
  | json_type_string, json_type_string => true
  | _, _ => false
  end.

(** A non-NULL [json_object*].  JSON's [null] is the NULL pointer in json-c,
    so members and elements are nullable.  A string object keeps its bytes
    and their count: it can hold a NUL (from the escape [\u0000]). *)
Inductive json_object : Type :=
| jso_boolean (b : bool)
| jso_double (text : list char)
| jso_int (i : Z)
| jso_object (members : list (list char * option json_object))
| jso_array (elems : list (option json_object))
| jso_string (buf : list char).

Definition json_object_get_type (jso : option json_object) : json_type :=
  match jso with
  | None => json_type_null
  | Some (jso_boolean _) => json_type_boolean
  | Some (jso_double _) => json_type_double
  | Some (jso_int _) => json_type_int
  | Some (jso_object _) => json_type_object
  | Some (jso_array _) => json_type_array
  | Some (jso_string _) => json_type_string
  end.

Definition json_object_is_type (jso : option json_object) (type : json_type)
  : bool :=
  json_type_eqb (json_object_get_type jso) type.

Fixpoint lh_table_lookup (members : list (list char * option json_object))
  (key : list char) : option json_object :=
  match members with
  | [] => None
  | (k, v) :: rest => if strcmp_eq k key then v else lh_table_lookup rest key
  end.

(** NULL when [jso] is NULL or no object, when the key is absent, and when
    the member is [null]. *)
Definition json_object_object_get (jso : option json_object) (key : list char)
  : option json_object :=
  match jso with
  | Some (jso_object members) => lh_table_lookup members key
  | _ => None
  end.

(** json-c itself: the tokener and the serializer are not part of the
    program and stay abstract. *)
Record JsonC : Type := {
  json_tokener_parse : list char -> option json_object;
  json_object_to_json_string : json_object -> list char
}.

Definition json_object_get_string (lib : JsonC) (jso : option json_object)
  : option (list char) :=
  match jso with
  | None => None
  | Some (jso_string buf) => Some buf
  | Some o => Some (json_object_to_json_string lib o)
  end.

End Json.

Import Json.

(** ** The program's records *)

Record Arguments : Type := {
  credentials : list char;
  jenkins_host : list char
}.

Record Credentials : Type := {
  user : option (list char);
  token : option (list char)
}.

(** <errno.h> *)
Definition EINVAL : Z := 22.
Definition ENOMEM : Z := 12.

(** ** get_file_contents *)

Record FileSystem : Type := {
  fs_stat : list char -> option nat;          (* st_size when stat succeeds *)
  fs_fopen : list char -> bool;               (* does fopen(path, "rb") succeed *)
  fs_fread : list char -> nat -> list char    (* the bytes fread delivers *)
}.

Definition get_file_contents (fs : FileSystem) (h : Heap) (path : list char)
  : option (list char) :=
  match fs_stat fs (c_str path) with
  | None => None
  | Some st_size =>
    if negb (fs_fopen fs (c_str path)) then None
    else
      match malloc h (st_size + 1) with
      | None => None
      | Some file_contents =>
        let data := firstn st_size (fs_fread fs (c_str path) st_size) in
        let bytes_read := length data in
        if negb (bytes_read =? st_size) then None
        else Some (data ++ skipn bytes_read file_contents)
      end
  end.

(** ** get_user_credentials *)

Definition get_user_credentials (lib : JsonC) (h : Heap)
  (creds : Credentials) (string : list char) : exec (Z * Credentials) :=
  match json_tokener_parse lib string with
  | None => Ret (1%Z, creds)
  | Some object =>
    let user_ := json_object_object_get (Some object) (lit "user") in
    if is_NULL user_ || negb (json_object_is_type user_ json_type_string)
    then Ret (2%Z, creds)
    else
      let token_ := json_object_object_get (Some object) (lit "token") in
      if is_NULL token_ || negb (json_object_is_type token_ json_type_string)
      then Ret (3%Z, creds)
      else
        u <- strdup h (json_object_get_string lib user_) ;;
        let creds := {| user := u; token := token creds |} in
        t <- strdup h (json_object_get_string lib token_) ;;
        let creds := {| user := user creds; token := t |} in
        Ret (0%Z, creds)
  end.

(** ** libcurl: one easy handle and the network behind it *)

Module Curl.

Definition CURLE_OK : Z := 0.
Definition CURLAUTH_BASIC : Z := 1.

Record CURL : Type := {
  opt_url : option (list char);
  opt_post : Z;
  opt_postfields : option (list char);
  opt_httpauth : Z;
  opt_username : option (list char);
  opt_password : option (list char);
  info_response_code : Z
}.

Definition curl_fresh : CURL :=
  {| opt_url := None; opt_post := 0; opt_postfields := None;
     opt_httpauth := 0; opt_username := None; opt_password := None;
     info_response_code := 0 |}.

Inductive CURLoption : Type :=
| CURLOPT_URL (v : option (list char))
| CURLOPT_POST (v : Z)
| CURLOPT_POSTFIELDS (v : option (list char))
| CURLOPT_HTTPAUTH (v : Z)
| CURLOPT_USERNAME (v : option (list char))
| CURLOPT_PASSWORD (v : option (list char)).

(** A string option holds the C string its argument points to. *)
Definition curl_easy_setopt (c : CURL) (o : CURLoption) : CURL :=
  match o with
  | CURLOPT_URL v =>
    {| opt_url := option_map c_str v; opt_post := opt_post c;
       opt_postfields := opt_postfields c; opt_httpauth := opt_httpauth c;
       opt_username := opt_username c; opt_password := opt_password c;
       info_response_code := info_response_code c |}
  | CURLOPT_POST v =>
    {| opt_url := opt_url c; opt_post := v;
       opt_postfields := opt_postfields c; opt_httpauth := opt_httpauth c;
       opt_username := opt_username c; opt_password := opt_password c;
       info_response_code := info_response_code c |}
  | CURLOPT_POSTFIELDS v =>
    {| opt_url := opt_url c; opt_post := opt_post c;
       opt_postfields := option_map c_str v; opt_httpauth := opt_httpauth c;
       opt_username := opt_username c; opt_password := opt_password c;
       info_response_code := info_response_code c |}
  | CURLOPT_HTTPAUTH v =>
    {| opt_url := opt_url c; opt_post := opt_post c;
       opt_postfields := opt_postfields c; opt_httpauth := v;
       opt_username := opt_username c; opt_password := opt_password c;
       info_response_code := info_response_code c |}
  | CURLOPT_USERNAME v =>
    {| opt_url := opt_url c; opt_post := opt_post c;
       opt_postfields := opt_postfields c; opt_httpauth := opt_httpauth c;
       opt_username := option_map c_str v; opt_password := opt_password c;
       info_response_code := info_response_code c |}
  | CURLOPT_PASSWORD v =>
    {| opt_url := opt_url c; opt_post := opt_post c;
       opt_postfields := opt_postfields c; opt_httpauth := opt_httpauth c;
       opt_username := opt_username c; opt_password := option_map c_str v;
       info_response_code := info_response_code c |}
  end.

(** What a transfer comes to: the [CURLcode] of [curl_easy_perform] and the
    last HTTP status received, 0 when the server sent none. *)
Record Outcome : Type := {
  curlcode : Z;
  http_status : Z
}.

(** The network decides each transfer from the transfers made before it and
    the handle as it is set up now. *)
Definition Network : Type := list CURL -> CURL -> Outcome.

(** [curl_easy_perform]: the transfer is added to the ones made so far and
    the handle remembers the status for [curl_easy_getinfo]. *)
Definition curl_easy_perform (net : Network) (sent : list CURL) (c : CURL)
  : Z * CURL * list CURL :=
  let o := net sent c in
  (curlcode o,
   {| opt_url := opt_url c; opt_post := opt_post c;
      opt_postfields := opt_postfields c; opt_httpauth := opt_httpauth c;
      opt_username := opt_username c; opt_password := opt_password c;
      info_response_code := http_status o |},
   sent ++ [c]).

(** [curl_easy_getinfo(curl, CURLINFO_RESPONSE_CODE, &code)] *)
Definition curl_easy_getinfo_response_code (c : CURL) : Z :=
  info_response_code c.

End Curl.

Import Curl.

(** Conversion of a [long] to the [int] a function returns. *)
Definition int_of_long (z : Z) : Z :=
  ((z + 2147483648) mod 4294967296 - 2147483648)%Z.

(** ** build_project *)

Definition build_project (net : Network) (sent : list CURL) (curl : CURL)
  (project_url : option (list char)) (project : list char)
  : Z * CURL * list CURL :=
  let curl := curl_easy_setopt curl (CURLOPT_URL project_url) in
  let curl := curl_easy_setopt curl (CURLOPT_POST 1) in
  let curl := curl_easy_setopt curl (CURLOPT_POSTFIELDS (Some (lit ""))) in
  let '(result, curl, sent) := curl_easy_perform net sent curl in
  if negb (result =? CURLE_OK)%Z then
    let result_code := 0%Z in
    let result_code := curl_easy_getinfo_response_code curl in
    (int_of_long result_code, curl, sent)
  else (0%Z, curl, sent).

(** ** main *)

Record World : Type := {
  getenv_PROJECTS : option (list char);   (* getenv("PROJECTS") *)
  fs : FileSystem;
  heap : Heap;
  jsonc : JsonC;
  curl_easy_init_ok : bool;
  network : Network
}.

(** One call of [build_project] by the loop of [main]. *)
Record Dispatch : Type := {
  d_project : list char;
  d_url : option (list char);
  d_result : Z
}.

(** What a run of the program amounts to: the value [main] returns, the
    calls of [build_project] it made and the transfers libcurl performed. *)
Record Run : Type := {
  exit_code : Z;
  dispatched : list Dispatch;
  requests : list CURL
}.

Definition exits (code : Z) : exec Run :=
  Ret {| exit_code := code; dispatched := []; requests := [] |}.

(** [exit_code] is the [int] that [main] returns.  What the parent process
    gets to see of it is the exit status: its low 8 bits. *)
Definition exit_status (r : Run) : Z := (exit_code r mod 256)%Z.

(** The [for] loop of [main], entered with the first token in [project]. *)
Fixpoint project_loop (fuel : nat) (w : World) (host : list char)
  (curl : CURL) (project : option (list char)) (saveptr : list char)
  (result : Z) (calls : list Dispatch) (sent : list CURL) : exec Run :=
  match project with
  | None =>
    Ret {| exit_code := result; dispatched := calls; requests := sent |}
  | Some p =>
    match fuel with
    | O => Stuck OutOfFuel
    | S fuel' =>
      project_url <- get_project_url_owned (heap w) host p ;;
      let '(result, curl, sent) :=
        build_project (network w) sent curl project_url p in
      let calls :=
        calls ++ [{| d_project := p; d_url := project_url;
                     d_result := result |}] in
      if negb (result =? 0)%Z then
        Ret {| exit_code := result; dispatched := calls; requests := sent |}
      else
        let '(project, saveptr) := strtok_r None (lit ":") saveptr in
        project_loop fuel' w host curl project saveptr result calls sent
    end
  end.

(** [main], from the return of [argp_parse] on: both arguments are set, or
    [argp_usage] has ended the process. *)
Definition main (w : World) (arguments : Arguments) : exec Run :=
  match getenv_PROJECTS w with
  | None => exits EINVAL
  | Some env_projects =>
    match get_file_contents (fs w) (heap w) (credentials arguments) with
    | None => exits EINVAL
    | Some credentials_file =>
      let creds := {| user := None; token := None |} in
      r <- get_user_credentials (jsonc w) (heap w) creds credentials_file ;;
      let '(result, creds) := r in
      if negb (result =? 0)%Z then exits result
      else if negb (curl_easy_init_ok w) then exits ENOMEM
      else
        let curl := curl_fresh in
        let curl := curl_easy_setopt curl (CURLOPT_HTTPAUTH CURLAUTH_BASIC) in
        let curl := curl_easy_setopt curl (CURLOPT_USERNAME (user creds)) in
        let curl := curl_easy_setopt curl (CURLOPT_PASSWORD (token creds)) in
        let env := c_str env_projects in
        let '(project, saveptr) := strtok_r (Some env) (lit ":") [] in
        project_loop (S (length env)) w (jenkins_host arguments) curl
          project saveptr result [] []
    end
  end.

(** ** parse_opt *)

Module Argp.

Definition ARGP_KEY_ARG : Z := 0.
Definition ARGP_KEY_END : Z := 16777217.   (* 0x1000001 *)
Definition ARGP_ERR_UNKNOWN : Z := 7.      (* E2BIG *)

(** The keys of the two options, ['h'] and ['c']. *)
Definition key_h : Z := Z.of_nat (nat_of_ascii "h"%char).
Definition key_c : Z := Z.of_nat (nat_of_ascii "c"%char).

End Argp.

Import Argp.

(** [struct Arguments] while argp fills it: both pointers start out NULL. *)
Record ArgumentSlots : Type := {
  slot_credentials : option (list char);
  slot_jenkins_host : option (list char)
}.

(** What a call of [parse_opt] comes to: it returns a code, or it calls
    [argp_usage], which prints the usage text and ends the process.  [said]
    is what [parse_opt] itself wrote to stderr before that. *)
Inductive parsing : Type :=
| Parsed (code : Z) (args : ArgumentSlots)
| UsageExit (said : list char).

Definition parse_opt (key : Z) (arg : option (list char))
  (args : ArgumentSlots) : parsing :=
  if (key =? ARGP_KEY_ARG)%Z then UsageExit []
  else if (key =? ARGP_KEY_END)%Z then
    if is_NULL (slot_credentials args)
    then UsageExit (lit "A credentials file is required")
    else if is_NULL (slot_jenkins_host args)
    then UsageExit (lit "A Jenkins host URL is required")
    else Parsed 0 args
  else if (key =? key_h)%Z then
    Parsed 0 {| slot_credentials := slot_credentials args;
                slot_jenkins_host := arg |}
  else if (key =? key_c)%Z then
    Parsed 0 {| slot_credentials := arg;
                slot_jenkins_host := slot_jenkins_host args |}
  else Parsed ARGP_ERR_UNKNOWN args.

(** argp hands the command line to the parser one event at a time, in
    order: an option's key with its value, [ARGP_KEY_ARG] with a positional
    argument, [ARGP_KEY_END] when the command line is used up.  A return of
    [ARGP_ERR_UNKNOWN] for a key that is no option is passed over. *)
Fixpoint argp_feed (events : list (Z * option (list char)))
  (args : ArgumentSlots) : parsing :=
  match events with
  | [] => Parsed 0 args
  | (key, arg) :: rest =>
    match parse_opt key arg args with
    | Parsed _ args' => argp_feed rest args'
    | UsageExit said => UsageExit said
    end
  end.

(** The arguments [main] goes on with, once both are set. *)
Definition arguments_of (args : ArgumentSlots) : option Arguments :=
  match slot_credentials args, slot_jenkins_host args with
  | Some c, Some h => Some {| credentials := c; jenkins_host := h |}
  | _, _ => None
  end.

(** ** Reference definitions, in the words of the specification *)

(** "{host}/job/{project}/build", by concatenation. *)
Definition url_by_concatenation (host project : list char) : list char :=
  host ++ lit "/job/" ++ project ++ lit "/build".

(** The handle as [main] sets it up before the loop. *)
Definition authenticated (creds : Credentials) : CURL :=
  curl_easy_setopt
    (curl_easy_setopt
       (curl_easy_setopt curl_fresh (CURLOPT_HTTPAUTH CURLAUTH_BASIC))
       (CURLOPT_USERNAME (user creds)))
    (CURLOPT_PASSWORD (token creds)).

(** The handle [build_project] performs the transfer with. *)
Definition prepared (curl : CURL) (project_url : option (list char)) : CURL :=
  curl_easy_setopt
    (curl_easy_setopt (curl_easy_setopt curl (CURLOPT_URL project_url))
       (CURLOPT_POST 1))
    (CURLOPT_POSTFIELDS (Some (lit ""))).

(** "split on ':'": every segment between two delimiters, empty ones too. *)
Fixpoint split_on (delim s : list char) : list (list char) :=
  match s with
  | [] => [[]]
  | c :: s' =>
    if mem c delim then [] :: split_on delim s'
    else
      match split_on delim s' with
      | seg :: segs => (c :: seg) :: segs
      | [] => [[c]]
      end
  end.

Definition is_empty (t : list char) : bool :=
  match t with
  | [] => true
  | _ :: _ => false
  end.

(** The segments that hold at least one byte, in order. *)
Definition tokens (delim s : list char) : list (list char) :=
  filter (fun t => negb (is_empty t)) (split_on delim s).

(** The project list of a run. *)
Definition project_list (env_projects : list char) : list (list char) :=
  tokens (lit ":") (c_str env_projects).

(** "For each project, in order: build its URL, dispatch the request.  Stop
    iterating at the first project whose dispatch result is non-zero;
    propagate that result." *)
Fixpoint dispatch_all (w : World) (host : list char) (curl : CURL)
  (projects : list (list char)) (result : Z) (calls : list Dispatch)
  (sent : list CURL) : exec Run :=
  match projects with
  | [] => Ret {| exit_code := result; dispatched := calls; requests := sent |}
  | p :: rest =>
    project_url <- get_project_url_owned (heap w) host p ;;
    let '(result, curl, sent) :=
      build_project (network w) sent curl project_url p in
    let calls :=
      calls ++ [{| d_project := p; d_url := project_url;
                   d_result := result |}] in
    if negb (result =? 0)%Z then
      Ret {| exit_code := result; dispatched := calls; requests := sent |}
    else dispatch_all w host curl rest result calls sent
  end.

(** The dispatcher's result for a transfer that came to [o]. *)
Definition result_of (o : Outcome) : Z :=
  if negb (curlcode o =? CURLE_OK)%Z then int_of_long (http_status o) else 0%Z.

(** The calls of [build_project] and the transfers go in step: each call
    makes one transfer, to the URL it was given, and returns what the
    network's answer to that transfer gives. *)
Inductive in_step (net : Network) : list Dispatch -> list CURL -> Prop :=
| in_step_nil : in_step net [] []
| in_step_snoc (calls : list Dispatch) (sent : list CURL)
    (d : Dispatch) (c : CURL) :
    in_step net calls sent ->
    opt_url c = option_map c_str (d_url d) ->
    d_result d = result_of (net sent c) ->
    in_step net (calls ++ [d]) (sent ++ [c]).

(** "a top-level key whose value is a JSON string": the bytes of that
    string, and nothing when the key is missing or holds something else. *)
Definition string_value (object : json_object) (key : list char)
  : option (list char) :=
  match json_object_object_get (Some object) key with
  | Some (jso_string buf) => Some buf
  | _ => None
  end.

(** The first dispatch that did not return 0 is the last one made, and its
    result is the exit code; with none, every project was dispatched and the
    exit code is 0. *)
Definition stops_at_first_failure (projects : list (list char)) (r : Run)
  : Prop :=
  exists rest : list (list char),
    projects = map d_project (dispatched r) ++ rest /\
    ((rest = [] /\
      Forall (fun d => d_result d = 0%Z) (dispatched r) /\
      exit_code r = 0%Z)
     \/
     (exists (before : list Dispatch) (failed : Dispatch),
        dispatched r = before ++ [failed] /\
        Forall (fun d => d_result d = 0%Z) before /\
        d_result failed <> 0%Z /\
        exit_code r = d_result failed)).

(** The value that the last event with this key carries; [init] without
    such an event. *)
Fixpoint last_arg (key : Z) (events : list (Z * option (list char)))
  (init : option (list char)) : option (list char) :=
  match events with
  | [] => init
  | (k, a) :: rest => last_arg key rest (if (k =? key)%Z then a else init)
  end.

(** Project names written one after the other with a colon between. *)
Fixpoint join_colon (projects : list (list char)) : list char :=
  match projects with
  | [] => []
  | [p] => p
  | p :: rest => p ++ lit ":" ++ join_colon rest
  end.

(** A transfer as the loop makes it for a call of [build_project]: a POST
    with an empty body, Basic authentication with the credentials loaded,
    to the URL built for the project (no URL when its buffer could not be
    allocated). *)
Definition posted (h : Heap) (host : list char) (creds : Credentials)
  (d : Dispatch) (c : CURL) : Prop :=
  d_url d =
    (if malloc_ok h (strlen host + 5 + strlen (d_project d) + 6 + 1)
     then Some (url_by_concatenation (c_str host) (c_str (d_project d))
                  ++ [NUL])
     else None) /\
  opt_url c =
    (if malloc_ok h (strlen host + 5 + strlen (d_project d) + 6 + 1)
     then Some (url_by_concatenation (c_str host) (c_str (d_project d)))
     else None) /\
  opt_post c = 1%Z /\
  opt_postfields c = Some [] /\
  opt_httpauth c = CURLAUTH_BASIC /\
  opt_username c = option_map c_str (user creds) /\
  opt_password c = option_map c_str (token creds).

(** The options of a handle that [build_project] leaves alone. *)
Definition auth_of (c : CURL)
  : Z * option (list char) * option (list char) :=
  (opt_httpauth c, opt_username c, opt_password c).

(** ** A tokener to run the examples with

    The theorems hold for every tokener.  The examples need one: this one
    reads objects, arrays, strings with their escapes, integers and the three
    literals, and builds what json-c builds for them ([null] is NULL, a
    repeated key keeps its last value, [\uXXXX] becomes UTF-8, so [\u0000]
    becomes a NUL byte inside the string). *)

Module SampleTokener.

Definition dq : char := "034"%char.
Definition backslash : char := "092"%char.

Definition is_space (c : char) : bool :=
  mem c [" "%char; "009"%char; "010"%char; "013"%char].

Fixpoint skip_space (s : list char) : list char :=
  match s with
  | [] => []
  | c :: s' => if is_space c then skip_space s' else s
  end.

Definition hex_value (c : char) : option nat :=
  let n := nat_of_ascii c in
  if (48 <=? n) && (n <=? 57) then Some (n - 48)
  else if (97 <=? n) && (n <=? 102) then Some (n - 87)
  else if (65 <=? n) && (n <=? 70) then Some (n - 55)
  else None.

Definition hex4 (a b c d : char) : option nat :=
  match hex_value a, hex_value b, hex_value c, hex_value d with
  | Some x, Some y, Some z, Some t => Some (((x * 16 + y) * 16 + z) * 16 + t)
  | _, _, _, _ => None
  end.

Definition utf8_encode (cp : nat) : list char :=
  if cp <? 128 then [ascii_of_nat cp]
  else if cp <? 2048 then
    [ascii_of_nat (192 + cp / 64); ascii_of_nat (128 + cp mod 64)]
  else
    [ascii_of_nat (224 + cp / 4096); ascii_of_nat (128 + (cp / 64) mod 64);
     ascii_of_nat (128 + cp mod 64)].

Definition unescape (e : char) : option char :=
  if Ascii.eqb e dq then Some dq
  else if Ascii.eqb e backslash then Some backslash
  else if Ascii.eqb e "/"%char then Some "/"%char
  else if Ascii.eqb e "b"%char then Some "008"%char
  else if Ascii.eqb e "f"%char then Some "012"%char
  else if Ascii.eqb e "n"%char then Some "010"%char
  else if Ascii.eqb e "r"%char then Some "013"%char
  else if Ascii.eqb e "t"%char then Some "009"%char
  else None.

(** The bytes of a string, read from after its opening quote, and what
    follows its closing quote. *)
Fixpoint scan_string (s : list char) : option (list char * list char) :=
  match s with
  | [] => None
  | c :: s' =>
    if Ascii.eqb c dq then Some ([], s')
    else if Ascii.eqb c backslash then
      match s' with
      | [] => None
      | e :: s'' =>
        if Ascii.eqb e "u"%char then
          match s'' with
          | h1 :: h2 :: h3 :: h4 :: s3 =>
            match hex4 h1 h2 h3 h4, scan_string s3 with
            | Some cp, Some (body, rest) => Some (utf8_encode cp ++ body, rest)
            | _, _ => None
            end
          | _ => None
          end
        else
          match unescape e, scan_string s'' with
          | Some x, Some (body, rest) => Some (x :: body, rest)
          | _, _ => None
          end
      end
    else
      match scan_string s' with
      | Some (body, rest) => Some (c :: body, rest)
      | None => None
      end
  end.

Definition is_digit (c : char) : bool :=
  (48 <=? nat_of_ascii c) && (nat_of_ascii c <=? 57).

Fixpoint scan_digits (s : list char) (acc : Z) : Z * list char :=
  match s with
  | [] => (acc, [])
  | c :: s' =>
    if is_digit c
    then scan_digits s' (acc * 10 + Z.of_nat (nat_of_ascii c - 48))%Z
    else (acc, s)
  end.

Fixpoint starts_with (p s : list char) : option (list char) :=
  match p, s with
  | [], _ => Some s
  | x :: p', y :: s' => if Ascii.eqb x y then starts_with p' s' else None
  | _ :: _, [] => None
  end.

Fixpoint put (k : list char) (v : option json_object)
  (members : list (list char * option json_object))
  : list (list char * option json_object) :=
  match members with
  | [] => [(k, v)]
  | (k', v') :: rest =>
    if strcmp_eq k' k then (k', v) :: rest else (k', v') :: put k v rest
  end.

(** A value and what follows it; the value [None] is [null]. *)
Fixpoint scan_value (fuel : nat) (s : list char)
  : option (option json_object * list char) :=
  match fuel with
  | O => None
  | S fuel' =>
    match skip_space s with
    | [] => None
    | c :: r =>
      if Ascii.eqb c "{"%char then
        match skip_space r with
        | c' :: r' =>
          if Ascii.eqb c' "}"%char then Some (Some (jso_object []), r')
          else scan_members fuel' r []
        | [] => None
        end
      else if Ascii.eqb c "["%char then
        match skip_space r with
        | c' :: r' =>
          if Ascii.eqb c' "]"%char then Some (Some (jso_array []), r')
          else scan_elements fuel' r []
        | [] => None
        end
      else if Ascii.eqb c dq then
        match scan_string r with
        | Some (body, rest) => Some (Some (jso_string body), rest)
        | None => None
        end
      else if Ascii.eqb c "-"%char then
        match r with
        | d :: _ =>
          if is_digit d
          then let '(n, rest) := scan_digits r 0%Z in
               Some (Some (jso_int (- n)), rest)
          else None
        | [] => None
        end
      else if is_digit c then
        let '(n, rest) := scan_digits (c :: r) 0%Z in
        Some (Some (jso_int n), rest)
      else
        match starts_with (lit "true") (c :: r) with
        | Some rest => Some (Some (jso_boolean true), rest)
        | None =>
          match starts_with (lit "false") (c :: r) with
          | Some rest => Some (Some (jso_boolean false), rest)
          | None =>
            match starts_with (lit "null") (c :: r) with
            | Some rest => Some (None, rest)
            | None => None
            end
          end
        end
    end
  end

with scan_members (fuel : nat) (s : list char)
  (acc : list (list char * option json_object))
  : option (option json_object * list char) :=
  match fuel with
  | O => None
  | S fuel' =>
    match skip_space s with
    | q :: r =>
      if Ascii.eqb q dq then
        match scan_string r with
        | Some (key, r1) =>
          match skip_space r1 with
          | colon :: r2 =>
            if Ascii.eqb colon ":"%char then
              match scan_value fuel' r2 with
              | Some (v, r3) =>
                let acc := put (c_str key) v acc in
                match skip_space r3 with
                | sep :: r4 =>
                  if Ascii.eqb sep ","%char then scan_members fuel' r4 acc
                  else if Ascii.eqb sep "}"%char
                  then Some (Some (jso_object acc), r4)
                  else None
                | [] => None
                end
              | None => None
              end
            else None
          | [] => None
          end
        | None => None
        end
      else None
    | [] => None
    end
  end

with scan_elements (fuel : nat) (s : list char)
  (acc : list (option json_object))
  : option (option json_object * list char) :=
  match fuel with
  | O => None
  | S fuel' =>
    match scan_value fuel' s with
    | Some (v, r1) =>
      match skip_space r1 with
      | sep :: r2 =>
        if Ascii.eqb sep ","%char then scan_elements fuel' r2 (acc ++ [v])
        else if Ascii.eqb sep "]"%char
        then Some (Some (jso_array (acc ++ [v])), r2)
        else None
      | [] => None
      end
    | None => None
    end
  end.

Definition tokener_parse (str : list char) : option json_object :=
  let s := c_str str in
  match scan_value (S (length s)) s with
  | Some (v, _) => v
  | None => None
  end.

(** The program asks for the string of string objects only, so the
    serializer is never called. *)
Definition lib : JsonC :=
  {| json_tokener_parse := tokener_parse;
     json_object_to_json_string := fun _ => [] |}.

(** A string between double quotes. *)
Definition quoted (s : string) : list char := dq :: lit s ++ [dq].

End SampleTokener.

(** ** Worlds to run the examples in *)

Module Sample.

Import SampleTokener.

(** Every allocation succeeds; fresh memory is zeroed. *)
Definition roomy : Heap :=
  {| malloc_ok := fun _ => true; junk := fun _ _ => NUL |}.

(** No allocation succeeds. *)
Definition exhausted : Heap :=
  {| malloc_ok := fun _ => false; junk := fun _ _ => NUL |}.

(** A file system that holds [creds.json] and nothing else. *)
Definition one_file (content : list char) : FileSystem :=
  {| fs_stat := fun path =>
       if str_eqb path (lit "creds.json") then Some (length content) else None;
     fs_fopen := fun path => str_eqb path (lit "creds.json");
     fs_fread := fun path n =>
       if str_eqb path (lit "creds.json") then firstn n content else [] |}.

Definition no_file : FileSystem :=
  {| fs_stat := fun _ => None;
     fs_fopen := fun _ => false;
     fs_fread := fun _ _ => [] |}.

(** {"user":"ci","token":"s3cr3t"} *)
Definition good_credentials : list char :=
  lit "{" ++ quoted "user" ++ lit ":" ++ quoted "ci" ++ lit ","
    ++ quoted "token" ++ lit ":" ++ quoted "s3cr3t" ++ lit "}".

(** {"user":"ci"} *)
Definition no_token : list char :=
  lit "{" ++ quoted "user" ++ lit ":" ++ quoted "ci" ++ lit "}".

(** {"token":"s3cr3t"} *)
Definition no_user : list char :=
  lit "{" ++ quoted "token" ++ lit ":" ++ quoted "s3cr3t" ++ lit "}".

(** {"user":"ci", *)
Definition not_json : list char :=
  lit "{" ++ quoted "user" ++ lit ":" ++ quoted "ci" ++ lit ",".

(** {"user":"a\u0000b","token":"t"} *)
Definition nul_in_user : list char :=
  lit "{" ++ quoted "user" ++ lit ":" ++ quoted "a\u0000b" ++ lit ","
    ++ quoted "token" ++ lit ":" ++ quoted "t" ++ lit "}".

(** {"user":"jos\u00e9","token":"p@ss:w/rd!"} *)
Definition unicode_credentials : list char :=
  lit "{" ++ quoted "user" ++ lit ":" ++ quoted "jos\u00e9" ++ lit ","
    ++ quoted "token" ++ lit ":" ++ quoted "p@ss:w/rd!" ++ lit "}".

(** What a caller may hold before the loader runs. *)
Definition previous : Credentials :=
  {| user := Some (lit "old-user"); token := Some (lit "old-token") |}.

Definition blank : Credentials := {| user := None; token := None |}.

Definition CURLE_COULDNT_CONNECT : Z := 7.
Definition CURLE_RECV_ERROR : Z := 56.

(** No transfer reaches a server. *)
Definition unreachable : Network :=
  fun _ _ => {| curlcode := CURLE_COULDNT_CONNECT; http_status := 0 |}.

(** The server answers every request with 401. *)
Definition rejecting : Network :=
  fun _ _ => {| curlcode := CURLE_OK; http_status := 401 |}.

(** The server accepts every build. *)
Definition accepting : Network :=
  fun _ _ => {| curlcode := CURLE_OK; http_status := 201 |}.

(** The second transfer breaks off after the status line of a 502. *)
Definition second_breaks : Network :=
  fun sent _ =>
    if length sent =? 1
    then {| curlcode := CURLE_RECV_ERROR; http_status := 502 |}
    else {| curlcode := CURLE_OK; http_status := 201 |}.

Definition world (projects : option (list char)) (files : FileSystem)
  (net : Network) : World :=
  {| getenv_PROJECTS := projects;
     fs := files;
     heap := roomy;
     jsonc := lib;
     curl_easy_init_ok := true;
     network := net |}.

Definition no_client (w : World) : World :=
  {| getenv_PROJECTS := getenv_PROJECTS w;
     fs := fs w;
     heap := heap w;
     jsonc := jsonc w;
     curl_easy_init_ok := false;
     network := network w |}.

Definition arguments : Arguments :=
  {| credentials := lit "creds.json";
     jenkins_host := lit "http://ci.example.com" |}.

(** The handle as [main] sets it up from [good_credentials]. *)
Definition handle : CURL :=
  {| opt_url := None; opt_post := 0; opt_postfields := None;
     opt_httpauth := CURLAUTH_BASIC; opt_username := Some (lit "ci");
     opt_password := Some (lit "s3cr3t"); info_response_code := 0 |}.

(** The transfer [build_project] makes for a project. *)
Definition post (project : string) : CURL :=
  {| opt_url := Some (jenkins_host arguments ++ lit "/job/" ++ lit project
                        ++ lit "/build");
     opt_post := 1; opt_postfields := Some [];
     opt_httpauth := CURLAUTH_BASIC; opt_username := Some (lit "ci");
     opt_password := Some (lit "s3cr3t"); info_response_code := 0 |}.

(** Every allocation succeeds; fresh memory holds what was left there. *)
Definition dirty : Heap :=
  {| malloc_ok := fun _ => true; junk := fun _ _ => "x"%char |}.

(** -c creds.json -h http://old -h http://ci.example.com *)
Definition command_line : list (Z * option (list char)) :=
  [(key_c, Some (lit "creds.json"));
   (key_h, Some (lit "http://old"));
   (key_h, Some (lit "http://ci.example.com"))].

Definition no_slots : ArgumentSlots :=
  {| slot_credentials := None; slot_jenkins_host := None |}.

(** Every transfer breaks off after the status line. *)
Definition breaks_with (status : Z) : Network :=
  fun _ _ => {| curlcode := CURLE_RECV_ERROR; http_status := status |}.

(** The first transfer fails with no answer, the others are accepted. *)
Definition first_unreachable : Network :=
  fun sent _ =>
    if length sent =? 0
    then {| curlcode := CURLE_COULDNT_CONNECT; http_status := 0 |}
    else {| curlcode := CURLE_OK; http_status := 201 |}.

End Sample.

(** * Properties *)

(** ** C strings *)

Section CStringFacts.

Lemma is_nul_NUL : is_nul NUL = true.
Proof. reflexivity. Qed.

Lemma c_str_nul_free (m : list char) : nul_free (c_str m) = true.
Proof.
  induction m as [|c m IH]; simpl; auto.
  destruct (is_nul c) eqn:E; simpl; auto.
  now rewrite E, IH.
Qed.

Lemma c_str_id (m : list char) : nul_free m = true -> c_str m = m.
Proof.
  induction m as [|c m IH]; simpl; auto.
  intros H. apply andb_true_iff in H as [Hc Hm].
  apply negb_true_iff in Hc. rewrite Hc. now rewrite IH.
Qed.

Lemma c_str_idem (m : list char) : c_str (c_str m) = c_str m.
Proof. apply c_str_id, c_str_nul_free. Qed.

Lemma nul_free_app (a b : list char) :
  nul_free (a ++ b) = nul_free a && nul_free b.
Proof. unfold nul_free. apply forallb_app. Qed.

Lemma c_str_app_nul (a b : list char) :
  nul_free a = true -> c_str (a ++ NUL :: b) = a.
Proof.
  induction a as [|c a IH]; simpl; auto.
  intros H. apply andb_true_iff in H as [Hc Ha].
  apply negb_true_iff in Hc. rewrite Hc. now rewrite IH.
Qed.

Lemma c_str_app_zeros (a : list char) (k : nat) :
  nul_free a = true -> c_str (a ++ repeat NUL k) = a.
Proof.
  intros H. destruct k as [|k]; simpl.
  - rewrite app_nil_r. now apply c_str_id.
  - now apply c_str_app_nul.
Qed.

Lemma existsb_nul_app_zeros (a : list char) (k : nat) :
  0 < k -> existsb is_nul (a ++ repeat NUL k) = true.
Proof.
  intros Hk. rewrite existsb_app. destruct k as [|k]; [lia|].
  simpl. apply orb_true_r.
Qed.

Lemma memset_fresh (m : list char) (c : char) :
  memset m c (length m) = repeat c (length m).
Proof.
  unfold memset. rewrite Nat.min_id, skipn_all. apply app_nil_r.
Qed.

Lemma malloc_length (h : Heap) (n : nat) (m : list char) :
  malloc h n = Some m -> length m = n.
Proof.
  unfold malloc. destruct (malloc_ok h n); [|discriminate].
  intros E. injection E as <-. now rewrite length_map, length_seq.
Qed.

Lemma skipn_repeat_sub (A : Type) (x : A) (n k : nat) :
  skipn n (repeat x k) = repeat x (k - n).
Proof.
  revert k. induction n as [|n IH]; intros [|k]; simpl; auto.
Qed.

(** Appending to a buffer whose tail is still zeroed. *)
Lemma strcat_zeros (a src : list char) (k : nat) :
  nul_free a = true -> strlen src < k ->
  strcat (a ++ repeat NUL k) src =
  Ret ((a ++ c_str src) ++ repeat NUL (k - strlen src)).
Proof.
  intros Ha Hk. unfold strcat, strlen in *.
  rewrite c_str_app_zeros by assumption.
  rewrite existsb_nul_app_zeros by lia.
  rewrite !length_app, repeat_length. simpl length.
  replace (length a + (length (c_str src) + 1) <=? length a + k) with true
    by (symmetry; apply Nat.leb_le; lia).
  simpl andb. cbv iota. f_equal.
  rewrite firstn_app, firstn_all, Nat.sub_diag, firstn_O, app_nil_r.
  rewrite <- !app_assoc. do 2 f_equal.
  rewrite skipn_app, skipn_all2 by lia. simpl.
  replace (length a + (length (c_str src) + 1) - length a)
    with (S (length (c_str src))) by lia.
  rewrite skipn_repeat_sub.
  replace (k - length (c_str src)) with (S (k - S (length (c_str src)))) by lia.
  reflexivity.
Qed.

End CStringFacts.

(** ** URL construction *)

Section UrlFacts.

Variable h : Heap.

(** The buffer is exactly as large as the four pieces and the terminator
    need, so no [strcat] overruns it. *)
Lemma get_project_url_owned_eq (host project : list char) :
  get_project_url_owned h host project =
  Ret (if malloc_ok h (strlen host + 5 + strlen project + 6 + 1)
       then Some (url_by_concatenation (c_str host) (c_str project) ++ [NUL])
       else None).
Proof.
  unfold get_project_url_owned.
  change (strlen (lit "/job/")) with 5. change (strlen (lit "/build")) with 6.
  set (n := strlen host + 5 + strlen project + 6 + 1).
  destruct (malloc h n) as [url|] eqn:E.
  - pose proof (malloc_length _ _ _ E) as L.
    unfold malloc in E. destruct (malloc_ok h n); [|discriminate].
    rewrite <- L at 1. rewrite memset_fresh, L.
    change (repeat NUL n) with ([] ++ repeat NUL n).
    rewrite strcat_zeros by (auto; subst n; lia). cbn [bind].
    rewrite strcat_zeros
      by (try apply c_str_nul_free; change (strlen (lit "/job/")) with 5;
          subst n; lia).
    cbn [bind].
    rewrite strcat_zeros
      by (rewrite ?nul_free_app, ?c_str_nul_free; auto;
          change (strlen (lit "/job/")) with 5; subst n; lia).
    cbn [bind].
    rewrite strcat_zeros
      by (rewrite ?nul_free_app, ?c_str_nul_free; auto;
          change (strlen (lit "/job/")) with 5;
          change (strlen (lit "/build")) with 6; subst n; lia).
    cbn [bind]. do 2 f_equal.
    change (strlen (lit "/job/")) with 5.
    change (strlen (lit "/build")) with 6.
    replace (n - strlen host - 5 - strlen project - 6) with 1 by (subst n; lia).
    unfold url_by_concatenation. simpl app at 1.
    change (c_str (lit "/job/")) with (lit "/job/").
    change (c_str (lit "/build")) with (lit "/build").
    rewrite <- !app_assoc. reflexivity.
  - unfold malloc in E. destruct (malloc_ok h n); [discriminate|reflexivity].
Qed.

End UrlFacts.

(** C6.  For a host and a project name (C strings: no NUL inside), the URL
    buffer that [get_project_url_owned] returns holds exactly
    host ++ "/job/" ++ project ++ "/build" and its terminator, and that is
    the string it denotes: nothing is encoded, no slash is added or removed.
    A host that ends in '/' gives a doubled slash.  The function returns NULL
    only when the allocation fails. *)
Theorem get_project_url_owned_concat (h : Heap) (host project : list char) :
  nul_free host = true -> nul_free project = true ->
  let url := host ++ lit "/job/" ++ project ++ lit "/build" in
  get_project_url_owned h host project =
    Ret (if malloc_ok h (length url + 1) then Some (url ++ [NUL]) else None)
  /\ c_str (url ++ [NUL]) = url
  /\ (forall host', host = host' ++ lit "/" ->
      url = host' ++ lit "//job/" ++ project ++ lit "/build").
Proof.
  intros Hh Hp url. split; [|split].
  - rewrite get_project_url_owned_eq. unfold strlen.
    rewrite !c_str_id by assumption.
    replace (length host + 5 + length project + 6 + 1) with (length url + 1).
    + reflexivity.
    + subst url. rewrite !length_app. simpl. lia.
  - apply c_str_app_nul. subst url.
    rewrite !nul_free_app, Hh, Hp. reflexivity.
  - intros host' ->. subst url. rewrite <- app_assoc. reflexivity.
Qed.

(** ** Tokens: what iterating [strtok_r] yields *)

Section TokenFacts.

Variable delim : list char.

Lemma split_on_cspn (s : list char) :
  split_on delim s =
  firstn (strcspn s delim) s ::
  match skipn (strcspn s delim) s with
  | [] => []
  | _ :: r => split_on delim r
  end.
Proof.
  induction s as [|c s IH]; simpl; auto.
  destruct (mem c delim); simpl; auto.
  now rewrite IH.
Qed.

Lemma tokens_skip_delims (s : list char) :
  tokens delim (skipn (strspn s delim) s) = tokens delim s.
Proof.
  induction s as [|c s IH]; simpl; auto.
  destruct (mem c delim) eqn:E; simpl; auto.
  rewrite IH. unfold tokens. simpl. now rewrite E.
Qed.

Lemma after_strspn (s r : list char) (c : char) :
  skipn (strspn s delim) s = c :: r -> mem c delim = false.
Proof.
  induction s as [|x s IH]; simpl; [discriminate|].
  destruct (mem x delim) eqn:E; simpl; auto.
  intros H. injection H as -> _. assumption.
Qed.

Lemma skipn_strspn_length (s : list char) :
  length (skipn (strspn s delim) s) <= length s.
Proof. rewrite length_skipn. lia. Qed.

Lemma tokens_head (c : char) (s : list char) :
  mem c delim = false ->
  tokens delim (c :: s) =
  firstn (strcspn (c :: s) delim) (c :: s) ::
  match skipn (strcspn (c :: s) delim) (c :: s) with
  | [] => []
  | _ :: r => tokens delim r
  end.
Proof.
  intros E. unfold tokens. rewrite split_on_cspn.
  simpl strcspn. rewrite E. simpl.
  destruct (skipn (strcspn s delim) s); reflexivity.
Qed.

Lemma tokens_nil : tokens delim [] = [].
Proof. reflexivity. Qed.

(** One call of [strtok_r] hands out the first token of the string it is
    at and leaves [saveptr] at what follows it. *)
Lemma strtok_r_tokens (str : option (list char)) (saveptr : list char) :
  let s := match str with Some s => s | None => saveptr end in
  match strtok_r str delim saveptr with
  | (None, _) => tokens delim s = []
  | (Some p, saveptr') =>
    tokens delim s = p :: tokens delim saveptr' /\ length saveptr' < length s
  end.
Proof.
  intros s. unfold strtok_r. fold s.
  destruct s as [|c0 s0] eqn:Es; [reflexivity|].
  rewrite <- Es. rewrite <- (tokens_skip_delims s).
  pose proof (skipn_strspn_length s) as Hlen.
  destruct (skipn (strspn s delim) s) as [|c r] eqn:E1; [reflexivity|].
  pose proof (after_strspn _ _ _ E1) as Hc.
  rewrite tokens_head by assumption.
  destruct (skipn (strcspn (c :: r) delim) (c :: r)) as [|x rest] eqn:E2.
  - split.
    + pose proof (firstn_skipn (strcspn (c :: r) delim) (c :: r)) as F.
      rewrite E2, app_nil_r in F. now rewrite F.
    + simpl in Hlen |- *. lia.
  - split; [reflexivity|].
    assert (length (x :: rest) <= length (c :: r)) as Hle.
    { rewrite <- E2, length_skipn. lia. }
    simpl in Hle, Hlen |- *. lia.
Qed.

Lemma split_on_nonempty (s : list char) : split_on delim s <> [].
Proof. rewrite split_on_cspn. discriminate. Qed.

Lemma split_on_free (s seg : list char) (c : char) :
  In seg (split_on delim s) -> In c seg -> mem c delim = false.
Proof.
  revert seg. induction s as [|x s IH]; simpl; intros seg Hin Hc.
  - destruct Hin as [<-|[]]. destruct Hc.
  - destruct (mem x delim) eqn:E.
    + destruct Hin as [<-|Hin]; [destruct Hc|]. eauto.
    + destruct (split_on delim s) as [|seg0 segs] eqn:Es.
      * destruct Hin as [<-|[]]. destruct Hc as [<-|[]]. assumption.
      * destruct Hin as [<-|Hin].
        -- destruct Hc as [<-|Hc]; [assumption|]. apply (IH seg0); simpl; auto.
        -- apply (IH seg); simpl; auto.
Qed.

Lemma tokens_In (s t : list char) :
  In t (tokens delim s) <-> In t (split_on delim s) /\ t <> [].
Proof.
  unfold tokens. rewrite filter_In. split; intros [H1 H2]; split; auto.
  - destruct t; [discriminate|discriminate].
  - destruct t; [contradiction|reflexivity].
Qed.

(** Where no segment is empty, the tokens are the segments. *)
Lemma tokens_all_segments (s : list char) :
  Forall (fun seg => seg <> []) (split_on delim s) ->
  tokens delim s = split_on delim s.
Proof.
  unfold tokens. induction (split_on delim s) as [|seg segs IH]; intros H.
  - reflexivity.
  - inversion H as [|? ? Hseg Hrest]; subst. simpl.
    destruct seg; [contradiction|]. simpl. now rewrite IH.
Qed.

End TokenFacts.

(** ** The dispatcher *)

Section DispatchFacts.

Variable net : Network.

Lemma build_project_eq (sent : list CURL) (curl : CURL)
  (project_url : option (list char)) (project : list char) :
  build_project net sent curl project_url project =
  (result_of (net sent (prepared curl project_url)),
   snd (fst (curl_easy_perform net sent (prepared curl project_url))),
   sent ++ [prepared curl project_url]).
Proof.
  unfold build_project, result_of, curl_easy_perform. fold (prepared curl project_url).
  cbn [fst snd curl_easy_getinfo_response_code info_response_code].
  destruct (negb (curlcode (net sent (prepared curl project_url)) =? CURLE_OK)%Z);
    reflexivity.
Qed.

Lemma prepared_url (curl : CURL) (project_url : option (list char)) :
  opt_url (prepared curl project_url) = option_map c_str project_url.
Proof. reflexivity. Qed.

End DispatchFacts.

Section LoopFacts.

Variable w : World.
Variable host : list char.

Lemma int_of_long_id (z : Z) :
  (-2147483648 <= z < 2147483648)%Z -> int_of_long z = z.
Proof.
  intros H. unfold int_of_long.
  rewrite Z.mod_small by lia. lia.
Qed.

(** The [for] loop with enough fuel is the in-order dispatch of the tokens
    that are left. *)
Lemma project_loop_dispatch_all (fuel : nat) :
  forall (curl : CURL) (project : option (list char)) (saveptr : list char)
         (result : Z) (calls : list Dispatch) (sent : list CURL),
    match project with
    | Some _ => length saveptr < fuel
    | None => True
    end ->
    project_loop fuel w host curl project saveptr result calls sent =
    dispatch_all w host curl
      match project with
      | None => []
      | Some p => p :: tokens (lit ":") saveptr
      end result calls sent.
Proof.
  induction fuel as [|fuel IH]; intros curl [p|] saveptr result calls sent Hf;
    try reflexivity; [lia|].
  cbn [project_loop dispatch_all].
  rewrite get_project_url_owned_eq. cbn [bind].
  destruct (build_project _ _ _ _ _) as [[r c] s].
  destruct (negb (r =? 0)%Z); [reflexivity|].
  pose proof (strtok_r_tokens (lit ":") None saveptr) as T. cbv zeta in T.
  destruct (strtok_r None (lit ":") saveptr) as [[p'|] saveptr'].
  - destruct T as [-> Hlt]. apply IH. lia.
  - rewrite T. apply IH. exact I.
Qed.

Lemma dispatch_all_total (projects : list (list char)) :
  forall (curl : CURL) (result : Z) (calls : list Dispatch) (sent : list CURL),
    exists run, dispatch_all w host curl projects result calls sent = Ret run.
Proof.
  induction projects as [|p rest IH]; intros; cbn [dispatch_all].
  - eauto.
  - rewrite get_project_url_owned_eq. cbn [bind].
    destruct (build_project _ _ _ _ _) as [[r c] s].
    destruct (negb (r =? 0)%Z); eauto.
Qed.

(** What an in-order dispatch leaves behind, started with [calls] made and
    [result] at 0. *)
Lemma dispatch_all_trace (projects : list (list char)) :
  forall (curl : CURL) (calls : list Dispatch) (sent : list CURL) (run : Run),
    dispatch_all w host curl projects 0%Z calls sent = Ret run ->
    exists (new : list Dispatch) (rest : list (list char)),
      dispatched run = calls ++ new /\
      projects = map d_project new ++ rest /\
      ((rest = [] /\ Forall (fun d => d_result d = 0%Z) new /\
        exit_code run = 0%Z)
       \/
       (exists (before : list Dispatch) (failed : Dispatch),
          new = before ++ [failed] /\
          Forall (fun d => d_result d = 0%Z) before /\
          d_result failed <> 0%Z /\
          exit_code run = d_result failed)).
Proof.
  induction projects as [|p ps IH]; intros curl calls sent run;
    cbn [dispatch_all].
  - intros E. injection E as <-. exists [], []. cbn.
    rewrite app_nil_r. repeat split; auto.
  - rewrite get_project_url_owned_eq. cbn [bind].
    destruct (build_project _ _ _ _ _) as [[r c] s].
    set (d := {| d_project := p; d_url := _; d_result := r |}).
    destruct (r =? 0)%Z eqn:Er; cbn [negb].
    + apply Z.eqb_eq in Er. subst r. intros E.
      destruct (IH _ _ _ _ E) as (new & rest & Hd & Hp & Hcase).
      exists (d :: new), rest. split; [|split].
      * rewrite Hd, <- app_assoc. reflexivity.
      * cbn. now rewrite Hp.
      * destruct Hcase as [(-> & Hall & Hex)|(before & failed & -> & Hall & Hf & Hex)].
        -- left. repeat split; auto.
        -- right. exists (d :: before), failed. repeat split; auto.
    + apply Z.eqb_neq in Er. intros E. injection E as <-.
      exists [d], ps. cbn. repeat split.
      right. exists [], d. cbn. auto.
Qed.

Lemma dispatch_all_in_step (projects : list (list char)) :
  forall (curl : CURL) (result : Z) (calls : list Dispatch) (sent : list CURL)
         (run : Run),
    in_step (network w) calls sent ->
    dispatch_all w host curl projects result calls sent = Ret run ->
    in_step (network w) (dispatched run) (requests run).
Proof.
  induction projects as [|p ps IH]; intros curl result calls sent run Hs;
    cbn [dispatch_all].
  - intros E. injection E as <-. exact Hs.
  - rewrite get_project_url_owned_eq. cbn [bind].
    rewrite build_project_eq.
    set (url := if malloc_ok (heap w) _ then _ else _).
    set (c := prepared curl url).
    set (d := {| d_project := p; d_url := url; d_result := _ |}).
    assert (in_step (network w) (calls ++ [d]) (sent ++ [c])) as Hs'.
    { apply in_step_snoc; auto. }
    destruct (negb _).
    + intros E. injection E as <-. exact Hs'.
    + intros E. eapply IH; eauto.
Qed.

End LoopFacts.

(** ** The credential loader *)

Section CredentialFacts.

Variable lib : JsonC.
Variable h : Heap.

(** The loader, case by case.  It never reads a NULL as a string: both
    members are known to be strings when they are copied. *)
Lemma get_user_credentials_eq (creds : Credentials) (s : list char) :
  get_user_credentials lib h creds s =
  Ret match json_tokener_parse lib s with
      | None => (1%Z, creds)
      | Some object =>
        match string_value object (lit "user") with
        | None => (2%Z, creds)
        | Some u =>
          match string_value object (lit "token") with
          | None => (3%Z, creds)
          | Some t =>
            (0%Z,
             {| user := if malloc_ok h (strlen u + 1)
                        then Some (c_str u) else None;
                token := if malloc_ok h (strlen t + 1)
                         then Some (c_str t) else None |})
          end
        end
      end.
Proof.
  unfold get_user_credentials, string_value.
  destruct (json_tokener_parse lib s) as [object|]; [|reflexivity].
  destruct (json_object_object_get (Some object) (lit "user")) as [[]|];
    try reflexivity.
  cbn [is_NULL json_object_is_type json_object_get_type json_type_eqb negb orb].
  destruct (json_object_object_get (Some object) (lit "token")) as [[]|];
    try reflexivity.
  cbn [is_NULL json_object_is_type json_object_get_type json_type_eqb negb orb
       json_object_get_string strdup].
  destruct (malloc_ok h (strlen buf + 1)), (malloc_ok h (strlen buf0 + 1));
    reflexivity.
Qed.

End CredentialFacts.

(** The serializer of json-c plays no part in the loader. *)
Lemma get_user_credentials_serializer (lib lib' : JsonC) (h : Heap)
  (creds : Credentials) (s : list char) :
  json_tokener_parse lib s = json_tokener_parse lib' s ->
  get_user_credentials lib h creds s = get_user_credentials lib' h creds s.
Proof. intros E. rewrite !get_user_credentials_eq, E. reflexivity. Qed.

(** ** main *)

Section MainFacts.

Variable w : World.
Variable arguments : Arguments.

(** Once the environment, the file, the credentials and the handle are
    there, [main] dispatches the project list in order. *)
Lemma main_ready (env file : list char) (creds : Credentials) :
  getenv_PROJECTS w = Some env ->
  get_file_contents (fs w) (heap w) (credentials arguments) = Some file ->
  get_user_credentials (jsonc w) (heap w) {| user := None; token := None |}
    file = Ret (0%Z, creds) ->
  curl_easy_init_ok w = true ->
  main w arguments =
  dispatch_all w (jenkins_host arguments) (authenticated creds)
    (project_list env) 0%Z [] [].
Proof.
  intros He Hf Hc Hi. unfold main. rewrite He, Hf, Hc. cbn [bind].
  cbn [Z.eqb negb]. rewrite Hi. cbn [negb].
  pose proof (strtok_r_tokens (lit ":") (Some (c_str env)) []) as T.
  cbv zeta in T. unfold project_list.
  destruct (strtok_r (Some (c_str env)) (lit ":") []) as [[p|] saveptr].
  - destruct T as [-> Hlt]. rewrite project_loop_dispatch_all by lia.
    reflexivity.
  - rewrite T. rewrite project_loop_dispatch_all by exact I. reflexivity.
Qed.

(** [main] always returns: the loop has the fuel it needs and nothing on
    the way leaves defined behaviour. *)
Lemma main_total : exists run : Run, main w arguments = Ret run.
Proof.
  unfold main.
  destruct (getenv_PROJECTS w) as [env|]; [|unfold exits; eauto].
  destruct (get_file_contents _ _ _) as [file|]; [|unfold exits; eauto].
  rewrite get_user_credentials_eq. cbn [bind].
  match goal with
  | |- context [let '(result, creds) := ?r in _] => destruct r as [result creds]
  end.
  destruct (negb (result =? 0)%Z); [unfold exits; eauto|].
  destruct (negb (curl_easy_init_ok w)); [unfold exits; eauto|].
  destruct (strtok_r (Some (c_str env)) (lit ":") []) as [project saveptr] eqn:E.
  pose proof (strtok_r_tokens (lit ":") (Some (c_str env)) []) as T.
  cbv zeta in T. rewrite E in T.
  rewrite project_loop_dispatch_all.
  - apply dispatch_all_total.
  - destruct project; [|exact I]. destruct T as [_ T]. lia.
Qed.

End MainFacts.

Section RunFacts.

Variable w : World.
Variable arguments : Arguments.

(** A run that dispatched anything got through the whole set-up. *)
Lemma main_cases (run : Run) :
  main w arguments = Ret run ->
  dispatched run = [] \/
  exists (env file : list char) (creds : Credentials),
    getenv_PROJECTS w = Some env /\
    get_file_contents (fs w) (heap w) (credentials arguments) = Some file /\
    get_user_credentials (jsonc w) (heap w) {| user := None; token := None |}
      file = Ret (0%Z, creds) /\
    curl_easy_init_ok w = true.
Proof.
  intros E.
  destruct (getenv_PROJECTS w) as [env|] eqn:He;
    [|unfold main, exits in E; rewrite He in E; injection E as <-; now left].
  destruct (get_file_contents (fs w) (heap w) (credentials arguments))
    as [file|] eqn:Hf;
    [|unfold main, exits in E; rewrite He, Hf in E; injection E as <-; now left].
  pose proof (get_user_credentials_eq (jsonc w) (heap w)
                {| user := None; token := None |} file) as Hc.
  destruct (curl_easy_init_ok w) eqn:Hi.
  - revert Hc.
    match goal with
    | |- _ = Ret ?r -> _ => destruct r as [result creds] eqn:Er
    end.
    intros Hc. destruct (result =? 0)%Z eqn:E0.
    + apply Z.eqb_eq in E0. subst result. right. exists env, file, creds. auto.
    + left. unfold main, exits in E. rewrite He, Hf, Hc in E. cbn [bind] in E.
      rewrite E0 in E. cbn [negb] in E. injection E as <-. reflexivity.
  - left. unfold main, exits in E. rewrite He, Hf, Hc in E. cbn [bind] in E.
    rewrite Hi in E.
    match type of E with
    | context [let '(result, creds) := ?r in _] => destruct r as [result creds]
    end.
    destruct (negb (result =? 0)%Z); cbn [negb] in E; injection E as <-;
      reflexivity.
Qed.

(** Every run stops at the first dispatch that fails, whatever the set-up
    came to. *)
Lemma main_run (run : Run) :
  main w arguments = Ret run ->
  in_step (network w) (dispatched run) (requests run) /\
  (dispatched run = [] \/
   exists env : list char,
     getenv_PROJECTS w = Some env /\
     stops_at_first_failure (project_list env) run).
Proof.
  intros E. destruct (main_cases run E) as [Hnil|(env & file & creds & He & Hf & Hc & Hi)].
  - split; [|now left].
    destruct (main_total w arguments) as [run' E']. 
    revert E. unfold main.
    destruct (getenv_PROJECTS w) as [env|];
      [|unfold exits; intros E; injection E as <-; constructor].
    destruct (get_file_contents _ _ _) as [file|];
      [|unfold exits; intros E; injection E as <-; constructor].
    rewrite get_user_credentials_eq. cbn [bind].
    match goal with
    | |- context [let '(result, creds) := ?r in _] => destruct r as [result creds]
    end.
    destruct (negb (result =? 0)%Z);
      [unfold exits; intros E; injection E as <-; constructor|].
    destruct (negb (curl_easy_init_ok w));
      [unfold exits; intros E; injection E as <-; constructor|].
    destruct (strtok_r (Some (c_str env)) (lit ":") []) as [project saveptr] eqn:Et.
    pose proof (strtok_r_tokens (lit ":") (Some (c_str env)) []) as T.
    cbv zeta in T. rewrite Et in T.
    rewrite project_loop_dispatch_all
      by (destruct project; [destruct T as [_ T]; lia|exact I]).
    apply dispatch_all_in_step. constructor.
  - rewrite (main_ready w arguments env file creds He Hf Hc Hi) in E. split.
    + eapply dispatch_all_in_step; [|exact E]. constructor.
    + right. exists env. split; [assumption|].
      destruct (dispatch_all_trace _ _ _ _ _ _ _ E)
        as (new & rest & Hd & Hp & Hcase).
      cbn [app] in Hd. subst new. exists rest. auto.
Qed.

End RunFacts.

Lemma in_step_last (net : Network) (calls : list Dispatch) (sent : list CURL)
  (d : Dispatch) (c : CURL) :
  in_step net (calls ++ [d]) (sent ++ [c]) ->
  in_step net calls sent /\
  opt_url c = option_map c_str (d_url d) /\
  d_result d = result_of (net sent c).
Proof.
  intros H. inversion H as [E1 E2|calls' sent' d' c' Hs Hu Hr E1 E2].
  - destruct calls; discriminate.
  - apply app_inj_tail in E1 as [-> ->]. apply app_inj_tail in E2 as [-> ->].
    auto.
Qed.

Lemma in_step_length (net : Network) (calls : list Dispatch)
  (sent : list CURL) :
  in_step net calls sent -> length calls = length sent.
Proof.
  induction 1; [reflexivity|]. rewrite !length_app. simpl. lia.
Qed.

(** ** What each transfer carries *)

Section TransferFacts.

Variable w : World.
Variable host : list char.
Variable creds : Credentials.

Lemma url_nul_free (a b : list char) :
  nul_free (url_by_concatenation (c_str a) (c_str b)) = true.
Proof.
  unfold url_by_concatenation.
  rewrite !nul_free_app, !c_str_nul_free. reflexivity.
Qed.

Lemma dispatch_all_posted (projects : list (list char)) :
  forall (curl : CURL) (result : Z) (calls : list Dispatch) (sent : list CURL)
         (run : Run),
    auth_of curl =
      (CURLAUTH_BASIC, option_map c_str (user creds),
       option_map c_str (token creds)) ->
    dispatch_all w host curl projects result calls sent = Ret run ->
    exists (made : list Dispatch) (moved : list CURL),
      dispatched run = calls ++ made /\
      requests run = sent ++ moved /\
      Forall2 (posted (heap w) host creds) made moved.
Proof.
  induction projects as [|p ps IH]; intros curl result calls sent run Ha;
    cbn [dispatch_all].
  - intros E. injection E as <-. exists [], []. cbn.
    rewrite !app_nil_r. auto.
  - rewrite get_project_url_owned_eq. cbn [bind]. rewrite build_project_eq.
    set (url := if malloc_ok (heap w) _ then _ else _).
    set (c := prepared curl url).
    set (d := {| d_project := p; d_url := url; d_result := _ |}).
    assert (posted (heap w) host creds d c) as Hp.
    { unfold auth_of in Ha. injection Ha as H1 H2 H3.
      unfold posted. subst d c url. cbn.
      destruct (malloc_ok (heap w) _); cbn; repeat split; auto.
      f_equal. apply c_str_app_nul, url_nul_free. }
    destruct (negb _).
    + intros E. injection E as <-. exists [d], [c]. cbn. auto.
    + intros E. apply IH in E; [|exact Ha].
      destruct E as (made & moved & Hd & Hr & Hall).
      exists (d :: made), (c :: moved).
      rewrite Hd, Hr, <- !app_assoc. cbn. auto.
Qed.

End TransferFacts.

(** * The specification's claims, checked *)

Lemma get_project_url_owned_concat_witness :
  nul_free (lit "http://ci.example.com") = true /\
  nul_free (lit "foo") = true /\
  get_project_url_owned Sample.roomy (lit "http://ci.example.com") (lit "foo")
  = Ret (Some (lit "http://ci.example.com/job/foo/build" ++ [NUL])).
Proof.
  split; [reflexivity|split; [reflexivity|]].
  exact (proj1 (get_project_url_owned_concat Sample.roomy
                  (lit "http://ci.example.com") (lit "foo")
                  eq_refl eq_refl)).
Defined.

(** Without memory for the buffer there is no URL. *)
Example url_allocation_fails :
  get_project_url_owned Sample.exhausted (lit "http://ci.example.com")
    (lit "foo") = Ret None.
Proof. reflexivity. Qed.

(** A host with a trailing slash: the slash is kept and doubled. *)
Example url_doubled_slash :
  get_project_url_owned Sample.roomy (lit "http://ci.example.com/") (lit "a b")
  = Ret (Some (lit "http://ci.example.com//job/a b/build" ++ [NUL])).
Proof. reflexivity. Qed.

(** C1, at the input where the code leaves it.  With PROJECTS="a:b" and a
    host that cannot be reached, each transfer fails without an HTTP status;
    [build_project] then returns the status it has, which is 0, so the
    loop goes on to the second project and [main] returns 0. *)
Theorem host_unreachable_exits_zero :
  let w := Sample.world (Some (lit "a:b"))
             (Sample.one_file Sample.good_credentials) Sample.unreachable in
  curlcode (network w [] (Sample.post "a")) <> CURLE_OK /\
  fst (fst (build_project (network w) [] Sample.handle
              (Some (lit "http://ci.example.com/job/a/build")) (lit "a")))
  = 0%Z /\
  main w Sample.arguments =
  Ret {| exit_code := 0;
         dispatched :=
           [{| d_project := lit "a";
               d_url := Some (lit "http://ci.example.com/job/a/build" ++ [NUL]);
               d_result := 0 |};
            {| d_project := lit "b";
               d_url := Some (lit "http://ci.example.com/job/b/build" ++ [NUL]);
               d_result := 0 |}];
         requests := [Sample.post "a"; Sample.post "b"] |}.
Proof.
  cbv zeta. split; [discriminate|]. split; vm_compute; reflexivity.
Qed.

(** What [build_project] returns when the transfer fails: the HTTP status
    the handle reports, 0 when none was received. *)
Lemma build_project_transport_failure (net : Network) (sent : list CURL)
  (curl : CURL) (project_url : option (list char)) (project : list char) :
  curlcode (net sent (prepared curl project_url)) <> CURLE_OK ->
  fst (fst (build_project net sent curl project_url project)) =
  int_of_long (http_status (net sent (prepared curl project_url))).
Proof.
  intros H. rewrite build_project_eq. cbn [fst]. unfold result_of.
  apply Z.eqb_neq in H. rewrite H. reflexivity.
Qed.

(** C2.  When the transfer completes ([CURLE_OK]), [build_project] returns 0
    whatever HTTP status came back; the status is not looked at.  So a
    server that answers 401 to every request still gives exit code 0, with
    every project dispatched. *)
Theorem build_project_ignores_http_status :
  (forall (net : Network) (sent : list CURL) (curl : CURL)
          (project_url : option (list char)) (project : list char)
          (status : Z),
      net sent (prepared curl project_url) =
        {| curlcode := CURLE_OK; http_status := status |} ->
      fst (fst (build_project net sent curl project_url project)) = 0%Z)
  /\
  (let w := Sample.world (Some (lit "svc1:svc2"))
              (Sample.one_file Sample.good_credentials) Sample.rejecting in
   (forall sent c, network w sent c =
                     {| curlcode := CURLE_OK; http_status := 401 |}) /\
   exists run : Run,
     main w Sample.arguments = Ret run /\
     exit_code run = 0%Z /\
     map d_project (dispatched run) = [lit "svc1"; lit "svc2"] /\
     length (requests run) = 2).
Proof.
  split.
  - intros net sent curl project_url project status H.
    rewrite build_project_eq. cbn [fst]. unfold result_of. rewrite H.
    reflexivity.
  - cbv zeta. split; [reflexivity|].
    eexists. split; [vm_compute; reflexivity|]. cbn. auto.
Qed.

Lemma build_project_ignores_http_status_witness :
  Sample.rejecting [] (prepared Sample.handle (Some (lit "http://h/job/p/build")))
  = {| curlcode := CURLE_OK; http_status := 401 |} /\
  fst (fst (build_project Sample.rejecting [] Sample.handle
              (Some (lit "http://h/job/p/build")) (lit "p"))) = 0%Z.
Proof.
  split; [reflexivity|].
  apply (proj1 build_project_ignores_http_status Sample.rejecting []
           Sample.handle (Some (lit "http://h/job/p/build")) (lit "p") 401%Z).
  reflexivity.
Defined.

(** C3, as stated, fails twice.  PROJECTS="a::b" splits at ':' into three
    segments, the middle one empty, yet with every dispatch returning 0 only
    a and b are dispatched.  And with PROJECTS="a:b:c" and b failing on a 502,
    [main] returns 502 but the final status of the process is 246. *)
Lemma split_segments_not_all_dispatched_cex :
  split_on (lit ":") (lit "a::b") = [lit "a"; []; lit "b"] /\
  (exists run : Run,
     main (Sample.world (Some (lit "a::b"))
             (Sample.one_file Sample.good_credentials) Sample.accepting)
       Sample.arguments = Ret run /\
     map d_result (dispatched run) = [0%Z; 0%Z] /\
     map d_project (dispatched run) = [lit "a"; lit "b"]) /\
  (exists run : Run,
     main (Sample.world (Some (lit "a:b:c"))
             (Sample.one_file Sample.good_credentials) Sample.second_breaks)
       Sample.arguments = Ret run /\
     map d_result (dispatched run) = [0%Z; 502%Z] /\
     exit_code run = 502%Z /\
     exit_status run = 246%Z).
Proof.
  split; [reflexivity|]. split.
  - eexists. split; [vm_compute; reflexivity|]. split; reflexivity.
  - eexists. split; [vm_compute; reflexivity|]. repeat split.
Qed.

(** C3, amended.  Once the set-up is through, [main] takes the non-empty
    segments of PROJECTS between colons, in order, as the project list.  It
    dispatches them in that order, each dispatch being one POST, with the
    credentials loaded, to the URL built for that project, and its result
    being what the network's answer gives.  It stops at the first dispatch
    that does not return 0 and returns that result; when every dispatch
    returns 0 it returns 0.  The final status of the process is the low 8
    bits of what [main] returns.  PROJECTS="a:b:c" is the list a, b, c. *)
Theorem main_dispatches_in_order (w : World) (arguments : Arguments)
  (env file : list char) (creds : Credentials) :
  getenv_PROJECTS w = Some env ->
  get_file_contents (fs w) (heap w) (credentials arguments) = Some file ->
  get_user_credentials (jsonc w) (heap w) {| user := None; token := None |}
    file = Ret (0%Z, creds) ->
  curl_easy_init_ok w = true ->
  (exists run : Run,
     main w arguments = Ret run /\
     project_list env =
       filter (fun t => negb (is_empty t)) (split_on (lit ":") (c_str env)) /\
     stops_at_first_failure (project_list env) run /\
     Forall2 (posted (heap w) (jenkins_host arguments) creds)
       (dispatched run) (requests run) /\
     in_step (network w) (dispatched run) (requests run) /\
     (Forall (fun d => d_result d = 0%Z) (dispatched run) ->
      exit_status run = 0%Z) /\
     (forall failed : Dispatch,
        In failed (dispatched run) -> d_result failed <> 0%Z ->
        exit_code run = d_result failed /\
        exit_status run = (d_result failed mod 256)%Z)) /\
  project_list (lit "a:b:c") = [lit "a"; lit "b"; lit "c"].
Proof.
  intros He Hf Hc Hi. split; [|reflexivity].
  destruct (main_total w arguments) as [run E]. exists run.
  split; [assumption|]. split; [reflexivity|].
  destruct (main_run w arguments run E) as [Hs _].
  rewrite (main_ready w arguments env file creds He Hf Hc Hi) in E.
  assert (stops_at_first_failure (project_list env) run) as Hstop.
  { destruct (dispatch_all_trace _ _ _ _ _ _ _ E)
      as (new & rest & Hd & Hp & Hcase).
    cbn [app] in Hd. subst new. exists rest. auto. }
  split; [exact Hstop|]. split; [|split; [exact Hs|]].
  - apply (dispatch_all_posted w (jenkins_host arguments) creds) in E;
      [|reflexivity].
    destruct E as (made & moved & -> & -> & H). exact H.
  - destruct Hstop as (rest & _ & Hcase). unfold exit_status. split.
    + intros Hall.
      destruct Hcase as [(_ & _ & ->)|(before & failed & Hd & _ & Hn & _)];
        [reflexivity|].
      rewrite Hd in Hall. apply Forall_app in Hall as [_ Hall].
      inversion Hall as [|? ? H0 _]; subst. contradiction.
    + intros failed Hin Hn.
      destruct Hcase as [(_ & Hall & _)|(before & failed' & Hd & Hall & _ & Hex)].
      * rewrite Forall_forall in Hall. apply Hall in Hin. contradiction.
      * rewrite Hd in Hin. apply in_app_or in Hin as [Hin|[<-|[]]].
        -- rewrite Forall_forall in Hall. apply Hall in Hin. contradiction.
        -- rewrite Hex. auto.
Qed.

Lemma main_dispatches_in_order_witness :
  exists run : Run,
    main (Sample.world (Some (lit "a:b:c"))
            (Sample.one_file Sample.good_credentials) Sample.second_breaks)
      Sample.arguments = Ret run /\
    project_list (lit "a:b:c") =
      filter (fun t => negb (is_empty t))
        (split_on (lit ":") (c_str (lit "a:b:c"))) /\
    stops_at_first_failure (project_list (lit "a:b:c")) run /\
    Forall2 (posted Sample.roomy (lit "http://ci.example.com")
               {| user := Some (lit "ci"); token := Some (lit "s3cr3t") |})
      (dispatched run) (requests run) /\
    in_step Sample.second_breaks (dispatched run) (requests run) /\
    (Forall (fun d => d_result d = 0%Z) (dispatched run) ->
     exit_status run = 0%Z) /\
    (forall failed : Dispatch,
       In failed (dispatched run) -> d_result failed <> 0%Z ->
       exit_code run = d_result failed /\
       exit_status run = (d_result failed mod 256)%Z).
Proof.
  exact (proj1 (main_dispatches_in_order
    (Sample.world (Some (lit "a:b:c"))
       (Sample.one_file Sample.good_credentials) Sample.second_breaks)
    Sample.arguments (lit "a:b:c") (Sample.good_credentials ++ [NUL])
    {| user := Some (lit "ci"); token := Some (lit "s3cr3t") |}
    eq_refl eq_refl eq_refl eq_refl)).
Defined.

(** With b failing, c is never dispatched and b's result is what [main]
    returns. *)
Example abc_stops_at_b :
  let w := Sample.world (Some (lit "a:b:c"))
             (Sample.one_file Sample.good_credentials) Sample.second_breaks in
  exists run : Run,
    main w Sample.arguments = Ret run /\
    map d_project (dispatched run) = [lit "a"; lit "b"] /\
    map d_result (dispatched run) = [0%Z; 502%Z] /\
    exit_code run = 502%Z.
Proof.
  cbv zeta. eexists. split; [vm_compute; reflexivity|]. cbn. auto.
Qed.

(** C9.  With PROJECTS set to the empty string, and the set-up through, the
    loop body never runs: no call of [build_project], no transfer, and
    [main] returns 0. *)
Theorem main_empty_projects (w : World) (arguments : Arguments)
  (env file : list char) (creds : Credentials) :
  getenv_PROJECTS w = Some env ->
  c_str env = [] ->
  get_file_contents (fs w) (heap w) (credentials arguments) = Some file ->
  get_user_credentials (jsonc w) (heap w) {| user := None; token := None |}
    file = Ret (0%Z, creds) ->
  curl_easy_init_ok w = true ->
  main w arguments =
  Ret {| exit_code := 0; dispatched := []; requests := [] |}.
Proof.
  intros He Hn Hf Hc Hi.
  rewrite (main_ready w arguments env file creds He Hf Hc Hi).
  unfold project_list. rewrite Hn. reflexivity.
Qed.

Lemma main_empty_projects_witness :
  main (Sample.world (Some (lit ""))
          (Sample.one_file Sample.good_credentials) Sample.accepting)
    Sample.arguments =
  Ret {| exit_code := 0; dispatched := []; requests := [] |}.
Proof.
  exact (main_empty_projects
    (Sample.world (Some (lit ""))
       (Sample.one_file Sample.good_credentials) Sample.accepting)
    Sample.arguments (lit "") (Sample.good_credentials ++ [NUL])
    {| user := Some (lit "ci"); token := Some (lit "s3cr3t") |}
    eq_refl eq_refl eq_refl eq_refl eq_refl).
Defined.

(** Two projects, both accepted: two POSTs with an empty body, in order,
    with the same credentials, and exit code 0. *)
Example two_projects_accepted :
  exists run : Run,
    main (Sample.world (Some (lit "svc1:svc2"))
            (Sample.one_file Sample.good_credentials) Sample.accepting)
      Sample.arguments = Ret run /\
    exit_code run = 0%Z /\
    map opt_url (requests run) =
      [Some (lit "http://ci.example.com/job/svc1/build");
       Some (lit "http://ci.example.com/job/svc2/build")] /\
    map opt_post (requests run) = [1%Z; 1%Z] /\
    map opt_postfields (requests run) = [Some []; Some []] /\
    map opt_httpauth (requests run) = [CURLAUTH_BASIC; CURLAUTH_BASIC] /\
    map opt_username (requests run) = [Some (lit "ci"); Some (lit "ci")] /\
    map opt_password (requests run) =
      [Some (lit "s3cr3t"); Some (lit "s3cr3t")].
Proof.
  eexists. split; [vm_compute; reflexivity|]. cbn. repeat split.
Qed.

(** ** Exit codes *)

(** C4, as stated, fails: an unset PROJECTS and an unreadable credentials
    file are two causes with one exit code, [EINVAL]. *)
Lemma exit_codes_shared_cex :
  getenv_PROJECTS
    (Sample.world None (Sample.one_file Sample.good_credentials)
       Sample.accepting) = None /\
  getenv_PROJECTS
    (Sample.world (Some (lit "a")) Sample.no_file Sample.accepting)
  = Some (lit "a") /\
  get_file_contents Sample.no_file Sample.roomy
    (credentials Sample.arguments) = None /\
  main (Sample.world None (Sample.one_file Sample.good_credentials)
          Sample.accepting) Sample.arguments = exits 22 /\
  main (Sample.world (Some (lit "a")) Sample.no_file Sample.accepting)
    Sample.arguments = exits 22.
Proof. repeat split. Qed.

Lemma main_loader_failed (w : World) (arguments : Arguments)
  (env file : list char) (code : Z) (creds : Credentials) :
  getenv_PROJECTS w = Some env ->
  get_file_contents (fs w) (heap w) (credentials arguments) = Some file ->
  get_user_credentials (jsonc w) (heap w) {| user := None; token := None |}
    file = Ret (code, creds) ->
  code <> 0%Z ->
  main w arguments = exits code.
Proof.
  intros He Hf Hc Hn. unfold main. rewrite He, Hf, Hc. cbn [bind].
  apply Z.eqb_neq in Hn. rewrite Hn. reflexivity.
Qed.

(** C4, amended.  [main] returns [EINVAL] when PROJECTS is unset and also
    when the credentials file cannot be read; 1 when the file is not JSON,
    2 without a string 'user', 3 without a string 'token'; [ENOMEM] when no
    easy handle is to be had.  These five codes are the exit status as they
    are, differ from each other and from 0.  When a dispatch fails with an
    HTTP status received, [main] returns that status and the exit status is
    its low 8 bits: for a status from 100 to 599 that is 0 or one of the
    five codes exactly for 256 to 259, 268, 278, 512 to 515, 524 and 534. *)
Theorem exit_codes (w : World) (arguments : Arguments) :
  (getenv_PROJECTS w = None -> main w arguments = exits EINVAL) /\
  (forall env : list char,
     getenv_PROJECTS w = Some env ->
     (get_file_contents (fs w) (heap w) (credentials arguments) = None ->
      main w arguments = exits EINVAL) /\
     (forall file : list char,
        get_file_contents (fs w) (heap w) (credentials arguments) = Some file ->
        (json_tokener_parse (jsonc w) file = None ->
         main w arguments = exits 1) /\
        (forall object : json_object,
           json_tokener_parse (jsonc w) file = Some object ->
           (string_value object (lit "user") = None ->
            main w arguments = exits 2) /\
           (forall u : list char,
              string_value object (lit "user") = Some u ->
              (string_value object (lit "token") = None ->
               main w arguments = exits 3) /\
              (forall t : list char,
                 string_value object (lit "token") = Some t ->
                 curl_easy_init_ok w = false ->
                 main w arguments = exits ENOMEM))))) /\
  (forall (code : Z) (run : Run),
     In code [EINVAL; 1%Z; 2%Z; 3%Z; ENOMEM] ->
     exits code = Ret run ->
     exit_status run = code /\ dispatched run = [] /\ requests run = []) /\
  (forall (run : Run) (before : list Dispatch) (failed : Dispatch)
          (sent : list CURL) (c : CURL),
     main w arguments = Ret run ->
     dispatched run = before ++ [failed] ->
     requests run = sent ++ [c] ->
     curlcode (network w sent c) <> CURLE_OK ->
     http_status (network w sent c) <> 0%Z ->
     (-2147483648 <= http_status (network w sent c) < 2147483648)%Z ->
     exit_code run = http_status (network w sent c) /\
     exit_status run = (http_status (network w sent c) mod 256)%Z) /\
  NoDup [EINVAL; 1%Z; 2%Z; 3%Z; ENOMEM] /\
  ~ In 0%Z [EINVAL; 1%Z; 2%Z; 3%Z; ENOMEM] /\
  (forall status : Z,
     (100 <= status <= 599)%Z ->
     ((status mod 256 = 0)%Z \/
      In (status mod 256)%Z [EINVAL; 1%Z; 2%Z; 3%Z; ENOMEM]
      <->
      In status [256; 257; 258; 259; 268; 278;
                 512; 513; 514; 515; 524; 534]%Z)).
Proof.
  split; [|split; [|split; [|split; [|split; [|split]]]]].
  - intros He. unfold main. now rewrite He.
  - intros env He. split.
    { intros Hf. unfold main. now rewrite He, Hf. }
    intros file Hf.
    pose proof (get_user_credentials_eq (jsonc w) (heap w)
                  {| user := None; token := None |} file) as Hc.
    split.
    { intros Hp. rewrite Hp in Hc.
      apply (main_loader_failed w arguments env file _ _ He Hf Hc).
      discriminate. }
    intros object Hp. rewrite Hp in Hc. split.
    { intros Hu. rewrite Hu in Hc.
      apply (main_loader_failed w arguments env file _ _ He Hf Hc).
      discriminate. }
    intros u Hu. rewrite Hu in Hc. split.
    { intros Ht. rewrite Ht in Hc.
      apply (main_loader_failed w arguments env file _ _ He Hf Hc).
      discriminate. }
    intros t Ht Hi. rewrite Ht in Hc.
    unfold main. rewrite He, Hf, Hc. cbn [bind Z.eqb negb]. now rewrite Hi.
  - intros code run Hin E. unfold exits in E. injection E as <-.
    unfold exit_status. cbn [exit_code dispatched requests].
    repeat split.
    unfold EINVAL, ENOMEM in Hin. simpl in Hin.
    destruct Hin as [<-|[<-|[<-|[<-|[<-|[]]]]]]; reflexivity.
  - intros run before failed sent c E Hd Hr Hcode Hst Hrange.
    assert (exit_code run = http_status (network w sent c)) as Hex.
    { destruct (main_run w arguments run E) as [Hs Hcase].
      rewrite Hd, Hr in Hs. apply in_step_last in Hs as (_ & _ & Hres).
      unfold result_of in Hres. apply Z.eqb_neq in Hcode.
      rewrite Hcode in Hres.
      cbn [negb] in Hres. rewrite int_of_long_id in Hres by assumption.
      destruct Hcase as [Hnil|(env & _ & rest & _ & Hcase)].
      + rewrite Hd in Hnil. destruct before; discriminate.
      + destruct Hcase
          as [(_ & Hall & _)|(before' & failed' & Hd' & _ & _ & Hex)].
        * rewrite Hd in Hall. apply Forall_app in Hall as [_ Hall].
          inversion Hall as [|? ? H0 _]; subst. congruence.
        * rewrite Hd in Hd'. apply app_inj_tail in Hd' as [_ <-].
          congruence. }
    split; [exact Hex|]. unfold exit_status. now rewrite Hex.
  - unfold EINVAL, ENOMEM. repeat constructor; simpl; intuition discriminate.
  - unfold EINVAL, ENOMEM. simpl. intuition discriminate.
  - intros status Hs. unfold EINVAL, ENOMEM. simpl.
    pose proof (Z.mod_pos_bound status 256 ltac:(lia)) as Hb.
    pose proof (Z.div_mod status 256 ltac:(lia)) as Hq.
    assert (status / 256 = 0 \/ status / 256 = 1 \/ status / 256 = 2)%Z
      as Hdiv by lia.
    split; intros H; lia.
Qed.

Lemma exit_codes_witness :
  main (Sample.world (Some (lit "a")) (Sample.one_file Sample.no_token)
          Sample.accepting) Sample.arguments = exits 3 /\
  main (Sample.no_client
          (Sample.world (Some (lit "a"))
             (Sample.one_file Sample.good_credentials) Sample.accepting))
    Sample.arguments = exits ENOMEM.
Proof.
  split.
  - destruct (exit_codes
                (Sample.world (Some (lit "a")) (Sample.one_file Sample.no_token)
                   Sample.accepting) Sample.arguments) as (_ & H & _).
    destruct (H (lit "a") eq_refl) as (_ & Hfile).
    destruct (Hfile (Sample.no_token ++ [NUL]) eq_refl) as (_ & Hobject).
    destruct (Hobject (jso_object [(lit "user", Some (jso_string (lit "ci")))])
                eq_refl) as (_ & Huser).
    destruct (Huser (lit "ci") eq_refl) as (Htoken & _).
    exact (Htoken eq_refl).
  - destruct (exit_codes
                (Sample.no_client
                   (Sample.world (Some (lit "a"))
                      (Sample.one_file Sample.good_credentials)
                      Sample.accepting)) Sample.arguments) as (_ & H & _).
    destruct (H (lit "a") eq_refl) as (_ & Hfile).
    destruct (Hfile (Sample.good_credentials ++ [NUL]) eq_refl)
      as (_ & Hobject).
    destruct (Hobject
                (jso_object [(lit "user", Some (jso_string (lit "ci")));
                             (lit "token", Some (jso_string (lit "s3cr3t")))])
                eq_refl) as (_ & Huser).
    destruct (Huser (lit "ci") eq_refl) as (_ & Htoken).
    exact (Htoken (lit "s3cr3t") eq_refl eq_refl).
Defined.

(** A dispatch that fails with a status received: [main] returns the
    status, the exit status is what its low 8 bits hold. *)
Example second_breaks_exit_code :
  exists run : Run,
    main (Sample.world (Some (lit "a:b"))
            (Sample.one_file Sample.good_credentials) Sample.second_breaks)
      Sample.arguments = Ret run /\
    exit_code run = 502%Z /\
    exit_status run = 246%Z.
Proof. eexists. split; [vm_compute; reflexivity|split; reflexivity]. Qed.

(** A 524 from the server leaves the exit status of [ENOMEM], a 512 the
    exit status of a run without failure. *)
Example status_folds_onto_fixed_code :
  (exists run : Run,
     main (Sample.world (Some (lit "a"))
             (Sample.one_file Sample.good_credentials)
             (Sample.breaks_with 524))
       Sample.arguments = Ret run /\
     exit_code run = 524%Z /\ exit_status run = ENOMEM) /\
  (exists run : Run,
     main (Sample.world (Some (lit "a"))
             (Sample.one_file Sample.good_credentials)
             (Sample.breaks_with 512))
       Sample.arguments = Ret run /\
     exit_code run = 512%Z /\ exit_status run = 0%Z).
Proof.
  split; eexists; (split; [vm_compute; reflexivity|split; reflexivity]).
Qed.

(** ** The project list *)

Lemma project_list_segments (env p : list char) :
  In p (project_list env) -> p <> [] /\ ~ In ":"%char p.
Proof.
  unfold project_list. intros H. apply tokens_In in H as [Hs Hn].
  split; [assumption|]. intros Hc.
  pose proof (split_on_free (lit ":") _ _ _ Hs Hc) as Hm. discriminate.
Qed.

Lemma main_dispatched_projects (w : World) (arguments : Arguments)
  (run : Run) (d : Dispatch) :
  main w arguments = Ret run ->
  In d (dispatched run) ->
  exists env : list char,
    getenv_PROJECTS w = Some env /\ In (d_project d) (project_list env).
Proof.
  intros E Hd. destruct (main_run w arguments run E) as [_ [Hnil|H]].
  - rewrite Hnil in Hd. destruct Hd.
  - destruct H as (env & He & rest & Hp & _). exists env.
    split; [assumption|]. rewrite Hp. apply in_or_app. left.
    now apply in_map.
Qed.

(** C5, as stated, fails: no value of PROJECTS makes the program dispatch
    an empty project name. *)
Lemma empty_project_dispatched_cex :
  ~ (exists (w : World) (arguments : Arguments) (run : Run),
       main w arguments = Ret run /\
       In [] (map d_project (dispatched run))).
Proof.
  intros (w & arguments & run & E & H).
  apply in_map_iff in H as (d & Hp & Hd).
  destruct (main_dispatched_projects w arguments run d E Hd) as (env & _ & Hin).
  apply project_list_segments in Hin as [Hn _]. congruence.
Qed.

(** C5, amended.  [strtok_r] skips leading, trailing and doubled colons:
    every project name the program dispatches holds at least one byte and
    no colon.  PROJECTS=":a::b:" is the list a, b, while splitting it at
    every colon gives five segments, three of them empty. *)
Theorem dispatched_projects_not_empty (w : World) (arguments : Arguments)
  (run : Run) :
  main w arguments = Ret run ->
  Forall (fun d => d_project d <> [] /\ ~ In ":"%char (d_project d))
    (dispatched run)
  /\ project_list (lit ":a::b:") = [lit "a"; lit "b"]
  /\ split_on (lit ":") (lit ":a::b:") = [[]; lit "a"; []; lit "b"; []].
Proof.
  intros E. split; [|split; reflexivity].
  apply Forall_forall. intros d Hd.
  destruct (main_dispatched_projects w arguments run d E Hd) as (env & _ & Hin).
  now apply project_list_segments in Hin.
Qed.

Lemma dispatched_projects_not_empty_witness :
  exists run : Run,
    main (Sample.world (Some (lit ":a::b:"))
            (Sample.one_file Sample.good_credentials) Sample.accepting)
      Sample.arguments = Ret run /\
    map d_project (dispatched run) = [lit "a"; lit "b"] /\
    Forall (fun d => d_project d <> [] /\ ~ In ":"%char (d_project d))
      (dispatched run).
Proof.
  eexists. split; [vm_compute; reflexivity|]. split; [reflexivity|].
  apply (dispatched_projects_not_empty
           (Sample.world (Some (lit ":a::b:"))
              (Sample.one_file Sample.good_credentials) Sample.accepting)
           Sample.arguments).
  vm_compute. reflexivity.
Defined.

(** ** The credential loader's contract *)

(** C7, as stated, fails: a 'user' value with U+0000 inside is a valid JSON
    string, the loader succeeds, and the credentials hold the bytes before
    the NUL only. *)
Lemma loader_truncates_at_nul_cex :
  json_tokener_parse SampleTokener.lib Sample.nul_in_user =
    Some (jso_object
            [(lit "user", Some (jso_string ["a"%char; NUL; "b"%char]));
             (lit "token", Some (jso_string (lit "t")))]) /\
  get_user_credentials SampleTokener.lib Sample.roomy Sample.blank
    Sample.nul_in_user =
    Ret (0%Z, {| user := Some (lit "a"); token := Some (lit "t") |}) /\
  lit "a" <> ["a"%char; NUL; "b"%char].
Proof. repeat split. discriminate. Qed.

(** C7, amended.  For a JSON object whose 'user' and 'token' are strings
    without a NUL, the loader returns 0 and each field of the credentials
    holds exactly the bytes of its value (a field is NULL only when its copy
    could not be allocated). *)
Theorem loader_round_trip (lib : JsonC) (h : Heap) (creds : Credentials)
  (s : list char) (object : json_object) (u t : list char) :
  json_tokener_parse lib s = Some object ->
  string_value object (lit "user") = Some u ->
  string_value object (lit "token") = Some t ->
  nul_free u = true ->
  nul_free t = true ->
  get_user_credentials lib h creds s =
  Ret (0%Z,
       {| user := if malloc_ok h (length u + 1) then Some u else None;
          token := if malloc_ok h (length t + 1) then Some t else None |}).
Proof.
  intros Hp Hu Ht Nu Nt. rewrite get_user_credentials_eq, Hp, Hu, Ht.
  unfold strlen. rewrite !c_str_id by assumption. reflexivity.
Qed.

Lemma loader_round_trip_witness :
  get_user_credentials SampleTokener.lib Sample.roomy Sample.blank
    Sample.unicode_credentials =
  Ret (0%Z,
       {| user := Some (lit "jos" ++ ["195"%char; "169"%char]);
          token := Some (lit "p@ss:w/rd!") |}).
Proof.
  exact (loader_round_trip SampleTokener.lib Sample.roomy Sample.blank
           Sample.unicode_credentials
           (jso_object
              [(lit "user",
                Some (jso_string (lit "jos" ++ ["195"%char; "169"%char])));
               (lit "token", Some (jso_string (lit "p@ss:w/rd!")))])
           (lit "jos" ++ ["195"%char; "169"%char]) (lit "p@ss:w/rd!")
           eq_refl eq_refl eq_refl eq_refl eq_refl).
Defined.

(** C8.  The loader returns 1 for content that is not JSON, 2 for an object
    without a string 'user', 3 for an object with a string 'user' and
    without a string 'token': three codes, none 0, no two alike. *)
Theorem loader_failure_codes (lib : JsonC) (h : Heap) (creds : Credentials)
  (s1 s2 s3 : list char) (o2 o3 : json_object) (u3 : list char) :
  json_tokener_parse lib s1 = None ->
  json_tokener_parse lib s2 = Some o2 ->
  string_value o2 (lit "user") = None ->
  json_tokener_parse lib s3 = Some o3 ->
  string_value o3 (lit "user") = Some u3 ->
  string_value o3 (lit "token") = None ->
  exists r1 r2 r3 : Z,
    get_user_credentials lib h creds s1 = Ret (r1, creds) /\
    get_user_credentials lib h creds s2 = Ret (r2, creds) /\
    get_user_credentials lib h creds s3 = Ret (r3, creds) /\
    (r1, r2, r3) = (1%Z, 2%Z, 3%Z) /\
    r1 <> 0%Z /\ r2 <> 0%Z /\ r3 <> 0%Z /\
    r1 <> r2 /\ r1 <> r3 /\ r2 <> r3.
Proof.
  intros H1 H2 U2 H3 U3 T3. exists 1%Z, 2%Z, 3%Z.
  rewrite !get_user_credentials_eq, H1, H2, U2, H3, U3, T3.
  repeat split; discriminate.
Qed.

Lemma loader_failure_codes_witness :
  exists r1 r2 r3 : Z,
    get_user_credentials SampleTokener.lib Sample.roomy Sample.blank
      Sample.not_json = Ret (r1, Sample.blank) /\
    get_user_credentials SampleTokener.lib Sample.roomy Sample.blank
      Sample.no_user = Ret (r2, Sample.blank) /\
    get_user_credentials SampleTokener.lib Sample.roomy Sample.blank
      Sample.no_token = Ret (r3, Sample.blank) /\
    (r1, r2, r3) = (1%Z, 2%Z, 3%Z) /\
    r1 <> 0%Z /\ r2 <> 0%Z /\ r3 <> 0%Z /\
    r1 <> r2 /\ r1 <> r3 /\ r2 <> r3.
Proof.
  exact (loader_failure_codes SampleTokener.lib Sample.roomy Sample.blank
           Sample.not_json Sample.no_user Sample.no_token
           (jso_object [(lit "token", Some (jso_string (lit "s3cr3t")))])
           (jso_object [(lit "user", Some (jso_string (lit "ci")))])
           (lit "ci")
           eq_refl eq_refl eq_refl eq_refl eq_refl eq_refl).
Defined.

(** C10.  The loader always returns, and when it returns a code other than
    0 the caller's credentials are as they were: both fields are written on
    the path that returns 0 and nowhere else. *)
Theorem loader_atomic_on_failure (lib : JsonC) (h : Heap)
  (creds : Credentials) (s : list char) :
  (exists (code : Z) (creds' : Credentials),
     get_user_credentials lib h creds s = Ret (code, creds')) /\
  (forall (code : Z) (creds' : Credentials),
     get_user_credentials lib h creds s = Ret (code, creds') ->
     code <> 0%Z ->
     creds' = creds).
Proof.
  rewrite get_user_credentials_eq. split.
  - match goal with
    | |- exists _ _, Ret ?r = _ => destruct r as [code creds']
    end.
    eauto.
  - intros code creds' E Hn.
    destruct (json_tokener_parse lib s) as [object|];
      [|injection E as _ <-; reflexivity].
    destruct (string_value object (lit "user"));
      [|injection E as _ <-; reflexivity].
    destruct (string_value object (lit "token"));
      [|injection E as _ <-; reflexivity].
    injection E as <- _. contradiction.
Qed.

Lemma loader_atomic_on_failure_witness :
  exists (code : Z) (creds' : Credentials),
    get_user_credentials SampleTokener.lib Sample.roomy Sample.previous
      Sample.no_token = Ret (code, creds') /\
    code <> 0%Z /\
    creds' = Sample.previous.
Proof.
  exists 3%Z, Sample.previous. split; [reflexivity|]. split; [discriminate|].
  apply (proj2 (loader_atomic_on_failure SampleTokener.lib Sample.roomy
                  Sample.previous Sample.no_token) 3%Z Sample.previous).
  - reflexivity.
  - discriminate.
Defined.

(** * Further properties of the code *)

(** ** Argument parsing *)

Section ParseFacts.

Lemma argp_feed_app (e1 e2 : list (Z * option (list char)))
  (args : ArgumentSlots) :
  argp_feed (e1 ++ e2) args =
  match argp_feed e1 args with
  | Parsed _ args' => argp_feed e2 args'
  | UsageExit said => UsageExit said
  end.
Proof.
  revert args. induction e1 as [|[key arg] e1 IH]; intros args; simpl; auto.
  destruct (parse_opt key arg args); auto.
Qed.

(** Between the options nothing ends the parse, and each option sets its
    own slot. *)
Lemma argp_feed_options (events : list (Z * option (list char))) :
  forall args : ArgumentSlots,
    Forall (fun e => fst e <> ARGP_KEY_ARG /\ fst e <> ARGP_KEY_END) events ->
    argp_feed events args =
    Parsed 0
      {| slot_credentials := last_arg key_c events (slot_credentials args);
         slot_jenkins_host := last_arg key_h events (slot_jenkins_host args) |}.
Proof.
  induction events as [|[key arg] events IH]; intros args H.
  - destruct args; reflexivity.
  - inversion H as [|? ? [Ha He] Hrest]; subst. cbn [fst] in Ha, He.
    cbn [argp_feed last_arg]. unfold parse_opt.
    apply Z.eqb_neq in Ha, He. rewrite Ha, He.
    destruct (key =? key_h)%Z eqn:Eh.
    + apply Z.eqb_eq in Eh. subst key. rewrite IH by assumption.
      reflexivity.
    + destruct (key =? key_c)%Z eqn:Ec; rewrite IH by assumption; reflexivity.
Qed.

Lemma argp_feed_no_positional (events : list (Z * option (list char))) :
  forall (args args' : ArgumentSlots) (code : Z),
    argp_feed events args = Parsed code args' ->
    Forall (fun e => fst e <> ARGP_KEY_ARG) events.
Proof.
  induction events as [|[key arg] events IH]; intros args args' code H.
  - constructor.
  - cbn [argp_feed] in H.
    destruct (parse_opt key arg args) as [c a|said] eqn:E; [|discriminate].
    constructor; [|eauto]. cbn [fst]. intros ->. discriminate.
Qed.

End ParseFacts.

(** X1.  On a command line of options only, the parse ends in the usage
    exit when no -c was given (said first, also when -h is missing too),
    then when no -h was given; otherwise it returns with the value of the
    last -c and of the last -h. *)
Theorem argp_feed_last_wins (events : list (Z * option (list char)))
  (args : ArgumentSlots) :
  Forall (fun e => fst e <> ARGP_KEY_ARG /\ fst e <> ARGP_KEY_END) events ->
  argp_feed (events ++ [(ARGP_KEY_END, None)]) args =
  match last_arg key_c events (slot_credentials args) with
  | None => UsageExit (lit "A credentials file is required")
  | Some c =>
    match last_arg key_h events (slot_jenkins_host args) with
    | None => UsageExit (lit "A Jenkins host URL is required")
    | Some h =>
      Parsed 0 {| slot_credentials := Some c; slot_jenkins_host := Some h |}
    end
  end.
Proof.
  intros H. rewrite argp_feed_app, argp_feed_options by assumption.
  cbn [argp_feed]. unfold parse_opt. cbn [Z.eqb ARGP_KEY_END ARGP_KEY_ARG].
  cbn [slot_credentials slot_jenkins_host].
  destruct (last_arg key_c events _); [|reflexivity].
  destruct (last_arg key_h events _); reflexivity.
Qed.

Lemma argp_feed_last_wins_witness :
  argp_feed (Sample.command_line ++ [(ARGP_KEY_END, None)]) Sample.no_slots =
  Parsed 0 {| slot_credentials := Some (lit "creds.json");
              slot_jenkins_host := Some (lit "http://ci.example.com") |}.
Proof.
  apply (argp_feed_last_wins Sample.command_line Sample.no_slots).
  repeat constructor; discriminate.
Defined.

(** X2.  Whatever the events, a parse that gets past [ARGP_KEY_END] has
    both arguments set, which is what [main] relies on, and saw no
    positional argument. *)
Theorem argp_feed_completes (events : list (Z * option (list char)))
  (arg : option (list char)) (args args' : ArgumentSlots) (code : Z) :
  argp_feed (events ++ [(ARGP_KEY_END, arg)]) args = Parsed code args' ->
  (exists a : Arguments, arguments_of args' = Some a) /\
  Forall (fun e => fst e <> ARGP_KEY_ARG) events.
Proof.
  intros H. rewrite argp_feed_app in H.
  destruct (argp_feed events args) as [c a1|said] eqn:E; [|discriminate].
  split; [|eapply argp_feed_no_positional; eauto].
  cbn [argp_feed] in H. unfold parse_opt in H.
  cbn [Z.eqb ARGP_KEY_END ARGP_KEY_ARG] in H.
  unfold arguments_of.
  destruct (slot_credentials a1) as [cr|] eqn:Ec; [|discriminate].
  destruct (slot_jenkins_host a1) as [ho|] eqn:Eh; [|discriminate].
  cbn [is_NULL] in H. injection H as _ <-. rewrite Ec, Eh. eauto.
Qed.

Lemma argp_feed_completes_witness :
  (exists a : Arguments,
     arguments_of
       {| slot_credentials := Some (lit "creds.json");
          slot_jenkins_host := Some (lit "http://ci.example.com") |}
     = Some a) /\
  Forall (fun e => fst e <> ARGP_KEY_ARG) Sample.command_line.
Proof.
  apply (argp_feed_completes Sample.command_line None Sample.no_slots
           {| slot_credentials := Some (lit "creds.json");
              slot_jenkins_host := Some (lit "http://ci.example.com") |} 0%Z).
  reflexivity.
Defined.

(** ** Reading the credentials file *)

Lemma malloc_last (h : Heap) (n : nat) :
  malloc_ok h (n + 1) = true ->
  option_map (skipn n) (malloc h (n + 1)) = Some [junk h (n + 1) n].
Proof.
  intros H. unfold malloc. rewrite H. cbn [option_map]. f_equal.
  rewrite seq_app, map_app, skipn_app, length_map, length_seq, Nat.sub_diag.
  rewrite skipn_all2 by (rewrite length_map, length_seq; lia).
  reflexivity.
Qed.

(** X3.  [get_file_contents] returns NULL in four cases and no other: stat
    fails, fopen fails, the buffer of st_size + 1 bytes cannot be
    allocated, or fread delivers fewer than st_size bytes. *)
Theorem get_file_contents_fails (fs : FileSystem) (h : Heap)
  (path : list char) :
  get_file_contents fs h path = None <->
  fs_stat fs (c_str path) = None \/
  exists st_size : nat,
    fs_stat fs (c_str path) = Some st_size /\
    (fs_fopen fs (c_str path) = false \/
     malloc_ok h (st_size + 1) = false \/
     length (fs_fread fs (c_str path) st_size) < st_size).
Proof.
  unfold get_file_contents, malloc.
  destruct (fs_stat fs (c_str path)) as [n|]; [|split; auto].
  destruct (fs_fopen fs (c_str path)) eqn:Eo; cbn [negb].
  - destruct (malloc_ok h (n + 1)) eqn:Em.
    + rewrite length_firstn.
      destruct (Nat.min n (length (fs_fread fs (c_str path) n)) =? n) eqn:E;
        cbn [negb].
      * apply Nat.eqb_eq in E. split; [discriminate|].
        intros [H|(m & Hm & H)]; [discriminate|].
        injection Hm as <-. destruct H as [H|[H|H]]; [congruence|congruence|lia].
      * apply Nat.eqb_neq in E. split; auto. intros _. right. exists n.
        split; auto. right. right. lia.
    + split; auto. intros _. right. exists n. auto.
  - split; auto. intros _. right. exists n. auto.
Qed.

(** X4.  On success the buffer holds the st_size bytes read and, after
    them, the one byte the allocation came with: no terminator is written.
    So the C string handed on is the file's content when that byte happens
    to be NUL, and has no end inside the buffer when it is not. *)
Theorem get_file_contents_buffer (fs : FileSystem) (h : Heap)
  (path buf : list char) :
  get_file_contents fs h path = Some buf ->
  exists (st_size : nat) (data : list char),
    fs_stat fs (c_str path) = Some st_size /\
    data = firstn st_size (fs_fread fs (c_str path) st_size) /\
    length data = st_size /\
    buf = data ++ [junk h (st_size + 1) st_size] /\
    (nul_free data = true ->
     if is_nul (junk h (st_size + 1) st_size)
     then c_str buf = data
     else nul_free buf = true).
Proof.
  unfold get_file_contents. intros H.
  destruct (fs_stat fs (c_str path)) as [n|]; [|discriminate].
  destruct (fs_fopen fs (c_str path)); [|discriminate]. cbn [negb] in H.
  pose proof (malloc_last h n) as L.
  destruct (malloc h (n + 1)) as [m|] eqn:Em; [|discriminate].
  set (data := firstn n (fs_fread fs (c_str path) n)) in *.
  destruct (length data =? n) eqn:E; [|discriminate]. cbn [negb] in H.
  apply Nat.eqb_eq in E. injection H as <-. rewrite E.
  unfold malloc in Em. destruct (malloc_ok h (n + 1)); [|discriminate].
  specialize (L eq_refl). cbn [option_map] in L. injection L as L.
  exists n, data. repeat split; auto.
  - now rewrite L.
  - intros Hd. rewrite L.
    destruct (is_nul (junk h (n + 1) n)) eqn:Ej.
    + unfold is_nul in Ej. apply Ascii.eqb_eq in Ej. rewrite Ej.
      now apply c_str_app_nul.
    + rewrite nul_free_app, Hd. simpl. now rewrite Ej.
Qed.

Lemma get_file_contents_buffer_witness :
  exists (st_size : nat) (data : list char),
    fs_stat (Sample.one_file Sample.good_credentials)
      (c_str (lit "creds.json")) = Some st_size /\
    data = firstn st_size
             (fs_fread (Sample.one_file Sample.good_credentials)
                (c_str (lit "creds.json")) st_size) /\
    length data = st_size /\
    Sample.good_credentials ++ ["x"%char] =
      data ++ [junk Sample.dirty (st_size + 1) st_size] /\
    (nul_free data = true ->
     if is_nul (junk Sample.dirty (st_size + 1) st_size)
     then c_str (Sample.good_credentials ++ ["x"%char]) = data
     else nul_free (Sample.good_credentials ++ ["x"%char]) = true).
Proof.
  apply (get_file_contents_buffer (Sample.one_file Sample.good_credentials)
           Sample.dirty (lit "creds.json")
           (Sample.good_credentials ++ ["x"%char])).
  reflexivity.
Defined.

(** ** The transfers of a run *)

Lemma in_step_snoc_calls (net : Network) (calls : list Dispatch)
  (sent : list CURL) (d : Dispatch) :
  in_step net (calls ++ [d]) sent ->
  exists (sent' : list CURL) (c : CURL),
    sent = sent' ++ [c] /\ in_step net calls sent' /\
    d_result d = result_of (net sent' c).
Proof.
  intros H. inversion H as [E1 E2|calls' sent' d' c' Hs Hu Hr E1 E2].
  - destruct calls; discriminate.
  - apply app_inj_tail in E1 as [-> ->]. eauto.
Qed.

Lemma in_step_snoc_sent (net : Network) (calls : list Dispatch)
  (sent : list CURL) (c : CURL) :
  in_step net calls (sent ++ [c]) ->
  exists (calls' : list Dispatch) (d : Dispatch),
    calls = calls' ++ [d] /\ in_step net calls' sent /\
    d_result d = result_of (net sent c).
Proof.
  intros H. inversion H as [E1 E2|calls' sent' d' c' Hs Hu Hr E1 E2].
  - destruct sent; discriminate.
  - apply app_inj_tail in E2 as [-> ->]. eauto.
Qed.

(** With no transfer that gives a result other than 0, the whole project
    list is dispatched. *)
Lemma main_no_failure (w : World) (arguments : Arguments)
  (env file : list char) (creds : Credentials) :
  getenv_PROJECTS w = Some env ->
  get_file_contents (fs w) (heap w) (credentials arguments) = Some file ->
  get_user_credentials (jsonc w) (heap w) {| user := None; token := None |}
    file = Ret (0%Z, creds) ->
  curl_easy_init_ok w = true ->
  (forall sent c, result_of (network w sent c) = 0%Z) ->
  exists run : Run,
    main w arguments = Ret run /\
    exit_code run = 0%Z /\
    map d_project (dispatched run) = project_list env /\
    length (requests run) = length (project_list env).
Proof.
  intros He Hf Hc Hi Hnet.
  destruct (main_total w arguments) as [run E]. exists run.
  split; [assumption|].
  destruct (main_run w arguments run E) as [Hs _].
  rewrite (main_ready w arguments env file creds He Hf Hc Hi) in E.
  destruct (dispatch_all_trace _ _ _ _ _ _ _ E)
    as (new & rest & Hd & Hp & Hcase).
  cbn [app] in Hd. subst new.
  destruct Hcase as [(-> & _ & Hex)|(before & failed & Hd & _ & Hf' & _)].
  - rewrite app_nil_r in Hp. repeat split; auto.
    rewrite <- (in_step_length _ _ _ Hs), Hp. now rewrite length_map.
  - rewrite Hd in Hs. apply in_step_snoc_calls in Hs as (s' & c & _ & _ & Hr).
    rewrite Hnet in Hr. contradiction.
Qed.

(** X5.  Every transfer of a run is a POST with an empty body, carries
    Basic authentication with the user and token loaded from the file, the
    same for all, and goes to the URL built for the project of its
    dispatch; a URL whose buffer could not be allocated is handed on as
    NULL all the same. *)
Theorem main_transfers_posted (w : World) (arguments : Arguments)
  (env file : list char) (creds : Credentials) (run : Run) :
  getenv_PROJECTS w = Some env ->
  get_file_contents (fs w) (heap w) (credentials arguments) = Some file ->
  get_user_credentials (jsonc w) (heap w) {| user := None; token := None |}
    file = Ret (0%Z, creds) ->
  curl_easy_init_ok w = true ->
  main w arguments = Ret run ->
  Forall2 (posted (heap w) (jenkins_host arguments) creds)
    (dispatched run) (requests run).
Proof.
  intros He Hf Hc Hi E.
  rewrite (main_ready w arguments env file creds He Hf Hc Hi) in E.
  apply (dispatch_all_posted w (jenkins_host arguments) creds) in E;
    [|reflexivity].
  destruct E as (made & moved & -> & -> & H). exact H.
Qed.

Lemma main_transfers_posted_witness :
  exists run : Run,
    main (Sample.world (Some (lit "svc1:svc2"))
            (Sample.one_file Sample.good_credentials) Sample.accepting)
      Sample.arguments = Ret run /\
    Forall2 (posted Sample.roomy (lit "http://ci.example.com")
               {| user := Some (lit "ci"); token := Some (lit "s3cr3t") |})
      (dispatched run) (requests run).
Proof.
  eexists. split; [vm_compute; reflexivity|].
  apply (main_transfers_posted
           (Sample.world (Some (lit "svc1:svc2"))
              (Sample.one_file Sample.good_credentials) Sample.accepting)
           Sample.arguments (lit "svc1:svc2")
           (Sample.good_credentials ++ [NUL])
           {| user := Some (lit "ci"); token := Some (lit "s3cr3t") |});
    vm_compute; reflexivity.
Defined.

(** X6.  When every transfer either completes or fails without an HTTP
    status, no dispatch stops the loop: every project of the list is
    dispatched, in order, one transfer each, and [main] returns 0. *)
Theorem main_dispatches_all (w : World) (arguments : Arguments)
  (env file : list char) (creds : Credentials) :
  getenv_PROJECTS w = Some env ->
  get_file_contents (fs w) (heap w) (credentials arguments) = Some file ->
  get_user_credentials (jsonc w) (heap w) {| user := None; token := None |}
    file = Ret (0%Z, creds) ->
  curl_easy_init_ok w = true ->
  (forall sent c,
     curlcode (network w sent c) = CURLE_OK \/
     http_status (network w sent c) = 0%Z) ->
  exists run : Run,
    main w arguments = Ret run /\
    exit_code run = 0%Z /\
    map d_project (dispatched run) = project_list env /\
    length (requests run) = length (project_list env).
Proof.
  intros He Hf Hc Hi Hnet.
  apply (main_no_failure w arguments env file creds He Hf Hc Hi).
  intros sent c. unfold result_of.
  destruct (Hnet sent c) as [H|H]; rewrite H; [reflexivity|].
  destruct (negb _); reflexivity.
Qed.

Lemma main_dispatches_all_witness :
  exists run : Run,
    main (Sample.world (Some (lit "a:b:c"))
            (Sample.one_file Sample.good_credentials)
            Sample.first_unreachable)
      Sample.arguments = Ret run /\
    exit_code run = 0%Z /\
    map d_project (dispatched run) = [lit "a"; lit "b"; lit "c"] /\
    length (requests run) = 3.
Proof.
  apply (main_dispatches_all
           (Sample.world (Some (lit "a:b:c"))
              (Sample.one_file Sample.good_credentials)
              Sample.first_unreachable)
           Sample.arguments (lit "a:b:c") (Sample.good_credentials ++ [NUL])
           {| user := Some (lit "ci"); token := Some (lit "s3cr3t") |});
    try reflexivity.
  intros sent c. cbn. unfold Sample.first_unreachable.
  destruct (length sent =? 0); [right|left]; reflexivity.
Defined.

(** X7.  A run that made a transfer returns a code other than 0 exactly
    when its last transfer failed and the handle reports for it a status
    that is not 0 as an [int]. *)
Theorem main_exit_code_nonzero (w : World) (arguments : Arguments)
  (run : Run) (sent : list CURL) (c : CURL) :
  main w arguments = Ret run ->
  requests run = sent ++ [c] ->
  (exit_code run <> 0%Z <->
   curlcode (network w sent c) <> CURLE_OK /\
   int_of_long (http_status (network w sent c)) <> 0%Z).
Proof.
  intros E Hr.
  destruct (main_run w arguments run E) as [Hs Hcase].
  rewrite Hr in Hs.
  apply in_step_snoc_sent in Hs as (calls & d & Hd & _ & Hres).
  assert (d_result d <> 0%Z <->
          curlcode (network w sent c) <> CURLE_OK /\
          int_of_long (http_status (network w sent c)) <> 0%Z) as Hiff.
  { rewrite Hres. unfold result_of.
    destruct (curlcode (network w sent c) =? CURLE_OK)%Z eqn:Ec; cbn [negb].
    - apply Z.eqb_eq in Ec. split; [contradiction|]. intros [H _]. contradiction.
    - apply Z.eqb_neq in Ec. split; auto. intros [_ H]. exact H. }
  destruct Hcase as [Hnil|(env & _ & rest & _ & Hcase)].
  - rewrite Hd in Hnil. destruct calls; discriminate.
  - destruct Hcase as [(_ & Hall & Hex)|(before & failed & Hd' & _ & Hf & Hex)].
    + rewrite Hd in Hall. apply Forall_app in Hall as [_ Hall].
      inversion Hall as [|? ? H0 _]; subst.
      rewrite Hex. rewrite <- Hiff, H0. reflexivity.
    + rewrite Hd in Hd'. apply app_inj_tail in Hd' as [_ <-].
      rewrite Hex. exact Hiff.
Qed.

Lemma main_exit_code_nonzero_witness :
  exists run : Run,
    main (Sample.world (Some (lit "a:b:c"))
            (Sample.one_file Sample.good_credentials) Sample.second_breaks)
      Sample.arguments = Ret run /\
    (exit_code run <> 0%Z <->
     curlcode (Sample.second_breaks [Sample.post "a"]
                 (curl_easy_setopt
                    (snd (fst (curl_easy_perform Sample.second_breaks []
                                 (Sample.post "a"))))
                    (CURLOPT_URL
                       (Some (lit "http://ci.example.com/job/b/build")))))
     <> CURLE_OK /\
     int_of_long
       (http_status
          (Sample.second_breaks [Sample.post "a"]
             (curl_easy_setopt
                (snd (fst (curl_easy_perform Sample.second_breaks []
                             (Sample.post "a"))))
                (CURLOPT_URL
                   (Some (lit "http://ci.example.com/job/b/build"))))))
     <> 0%Z).
Proof.
  eexists. split; [vm_compute; reflexivity|].
  apply (main_exit_code_nonzero
           (Sample.world (Some (lit "a:b:c"))
              (Sample.one_file Sample.good_credentials) Sample.second_breaks)
           Sample.arguments);
    vm_compute; reflexivity.
Defined.

(** ** The project list, further *)

Section JoinFacts.

Variable delim : list char.

Lemma split_on_free_segment (p : list char) :
  (forall c, In c p -> mem c delim = false) ->
  split_on delim p = [p].
Proof.
  induction p as [|x p IH]; intros H; [reflexivity|].
  cbn [split_on]. rewrite (H x) by (left; reflexivity).
  rewrite IH by (intros c Hc; apply H; right; assumption). reflexivity.
Qed.

Lemma split_on_segment_then (p s : list char) (d : char) :
  (forall c, In c p -> mem c delim = false) ->
  mem d delim = true ->
  split_on delim (p ++ d :: s) = p :: split_on delim s.
Proof.
  intros H Hd. induction p as [|x p IH]; cbn [app split_on].
  - now rewrite Hd.
  - rewrite (H x) by (left; reflexivity).
    rewrite IH by (intros c Hc; apply H; right; assumption). reflexivity.
Qed.

End JoinFacts.

Lemma colon_free_mem (p : list char) :
  ~ In ":"%char p -> forall c, In c p -> mem c (lit ":") = false.
Proof.
  intros H c Hc. cbn. rewrite orb_false_r. apply Ascii.eqb_neq.
  intros ->. contradiction.
Qed.

Lemma tokens_join_colon (projects : list (list char)) :
  Forall (fun p => p <> [] /\ ~ In ":"%char p) projects ->
  tokens (lit ":") (join_colon projects) = projects.
Proof.
  induction projects as [|p ps IH]; intros H; [reflexivity|].
  inversion H as [|? ? [Hn Hc] Hps]; subst.
  destruct ps as [|q ps].
  - cbn [join_colon]. unfold tokens.
    rewrite split_on_free_segment by (apply colon_free_mem; assumption).
    destruct p; [contradiction|reflexivity].
  - change (join_colon (p :: q :: ps))
      with (p ++ ":"%char :: join_colon (q :: ps)).
    unfold tokens.
    rewrite split_on_segment_then
      by (try reflexivity; apply colon_free_mem; assumption).
    cbn [filter]. destruct p as [|x p]; [contradiction|]. cbn [is_empty negb].
    f_equal. apply IH. assumption.
Qed.

Lemma join_colon_nul_free (projects : list (list char)) :
  Forall (fun p => nul_free p = true) projects ->
  nul_free (join_colon projects) = true.
Proof.
  induction projects as [|p ps IH]; intros H; [reflexivity|].
  inversion H as [|? ? Hp Hps]; subst.
  destruct ps as [|q ps]; [assumption|].
  change (join_colon (p :: q :: ps))
    with (p ++ lit ":" ++ join_colon (q :: ps)).
  rewrite !nul_free_app, Hp, IH by assumption. reflexivity.
Qed.

Lemma tokens_only_colons (n : nat) :
  tokens (lit ":") (repeat ":"%char n) = [].
Proof.
  induction n as [|n IH]; [reflexivity|].
  unfold tokens in *. cbn [repeat split_on]. cbn. exact IH.
Qed.

(** X8.  A PROJECTS value made of colons only names no project: with the
    set-up through, nothing is dispatched, no transfer is made and [main]
    returns 0. *)
Theorem main_only_colons (w : World) (arguments : Arguments)
  (env file : list char) (creds : Credentials) (n : nat) :
  getenv_PROJECTS w = Some env ->
  c_str env = repeat ":"%char n ->
  get_file_contents (fs w) (heap w) (credentials arguments) = Some file ->
  get_user_credentials (jsonc w) (heap w) {| user := None; token := None |}
    file = Ret (0%Z, creds) ->
  curl_easy_init_ok w = true ->
  main w arguments =
  Ret {| exit_code := 0; dispatched := []; requests := [] |}.
Proof.
  intros He Hn Hf Hc Hi.
  rewrite (main_ready w arguments env file creds He Hf Hc Hi).
  unfold project_list. rewrite Hn, tokens_only_colons. reflexivity.
Qed.

Lemma main_only_colons_witness :
  main (Sample.world (Some (lit ":::"))
          (Sample.one_file Sample.good_credentials) Sample.unreachable)
    Sample.arguments =
  Ret {| exit_code := 0; dispatched := []; requests := [] |}.
Proof.
  exact (main_only_colons
    (Sample.world (Some (lit ":::"))
       (Sample.one_file Sample.good_credentials) Sample.unreachable)
    Sample.arguments (lit ":::") (Sample.good_credentials ++ [NUL])
    {| user := Some (lit "ci"); token := Some (lit "s3cr3t") |} 3
    eq_refl eq_refl eq_refl eq_refl eq_refl).
Defined.

(** X9.  Project names that hold at least one byte, no colon and no NUL
    come through PROJECTS unchanged: joined with colons, they are
    dispatched one by one in the order written, repeated names included,
    as long as no dispatch stops the loop. *)
Theorem main_projects_round_trip (w : World) (arguments : Arguments)
  (projects : list (list char)) (file : list char) (creds : Credentials) :
  Forall (fun p => p <> [] /\ ~ In ":"%char p) projects ->
  Forall (fun p => nul_free p = true) projects ->
  getenv_PROJECTS w = Some (join_colon projects) ->
  get_file_contents (fs w) (heap w) (credentials arguments) = Some file ->
  get_user_credentials (jsonc w) (heap w) {| user := None; token := None |}
    file = Ret (0%Z, creds) ->
  curl_easy_init_ok w = true ->
  (forall sent c, curlcode (network w sent c) = CURLE_OK) ->
  exists run : Run,
    main w arguments = Ret run /\
    map d_project (dispatched run) = projects /\
    exit_code run = 0%Z.
Proof.
  intros Hp Hz He Hf Hc Hi Hnet.
  destruct (main_no_failure w arguments (join_colon projects) file creds
              He Hf Hc Hi) as (run & E & Hex & Hd & _).
  - intros sent c. unfold result_of. now rewrite Hnet.
  - exists run. repeat split; auto.
    rewrite Hd. unfold project_list.
    rewrite c_str_id by (apply join_colon_nul_free; assumption).
    now apply tokens_join_colon.
Qed.

Lemma main_projects_round_trip_witness :
  exists run : Run,
    main (Sample.world (Some (lit "svc1:svc2:svc1"))
            (Sample.one_file Sample.good_credentials) Sample.rejecting)
      Sample.arguments = Ret run /\
    map d_project (dispatched run) = [lit "svc1"; lit "svc2"; lit "svc1"] /\
    exit_code run = 0%Z.
Proof.
  apply (main_projects_round_trip
           (Sample.world (Some (lit "svc1:svc2:svc1"))
              (Sample.one_file Sample.good_credentials) Sample.rejecting)
           Sample.arguments [lit "svc1"; lit "svc2"; lit "svc1"]
           (Sample.good_credentials ++ [NUL])
           {| user := Some (lit "ci"); token := Some (lit "s3cr3t") |});
    try reflexivity.
  - repeat constructor; try discriminate;
      cbn; intuition discriminate.
  - repeat constructor.
Defined.

(** X10.  No transfer is made before the set-up is through: a run with a
    transfer had PROJECTS set, the file read, the credentials loaded with
    code 0 and a handle.  Each dispatch makes one transfer, and there are no
    more of them than projects in the list. *)
Theorem main_transfers_need_setup (w : World) (arguments : Arguments)
  (run : Run) :
  main w arguments = Ret run ->
  length (requests run) = length (dispatched run) /\
  (requests run <> [] ->
   exists (env file : list char) (creds : Credentials),
     getenv_PROJECTS w = Some env /\
     get_file_contents (fs w) (heap w) (credentials arguments) = Some file /\
     get_user_credentials (jsonc w) (heap w)
       {| user := None; token := None |} file = Ret (0%Z, creds) /\
     curl_easy_init_ok w = true /\
     length (requests run) <= length (project_list env)).
Proof.
  intros E. destruct (main_run w arguments run E) as [Hs Hcase].
  pose proof (in_step_length _ _ _ Hs) as Hlen. split; [auto|].
  intros Hne.
  destruct (main_cases w arguments run E)
    as [Hnil|(env & file & creds & He & Hf & Hc & Hi)].
  - rewrite Hnil in Hlen. destruct (requests run); [contradiction|discriminate].
  - exists env, file, creds. repeat split; auto.
    destruct Hcase as [Hnil|(env' & He' & rest & Hp & _)].
    + rewrite Hnil in Hlen. rewrite <- Hlen. cbn. lia.
    + rewrite He in He'. injection He' as <-.
      rewrite <- Hlen, Hp, length_app, length_map. lia.
Qed.

Lemma main_transfers_need_setup_witness :
  exists run : Run,
    main (Sample.world (Some (lit "a:b:c"))
            (Sample.one_file Sample.good_credentials) Sample.second_breaks)
      Sample.arguments = Ret run /\
    length (requests run) = 2 /\
    length (dispatched run) = 2.
Proof.
  eexists. split; [vm_compute; reflexivity|]. split; [reflexivity|].
  match goal with
  | |- length (dispatched ?r) = 2 =>
    rewrite <- (proj1 (main_transfers_need_setup
      (Sample.world (Some (lit "a:b:c"))
         (Sample.one_file Sample.good_credentials) Sample.second_breaks)
      Sample.arguments r ltac:(vm_compute; reflexivity)))
  end.
  reflexivity.
Defined.

(** ** The credential loader, further *)

(** X11.  A document whose top level is valid JSON but no object (an array,
    a string, a number, a boolean) is turned down with code 2, the code of
    a missing 'user', not with code 1; the credentials stay as they were. *)
Theorem loader_top_level_not_object (lib : JsonC) (h : Heap)
  (creds : Credentials) (s : list char) (o : json_object) :
  json_tokener_parse lib s = Some o ->
  json_object_get_type (Some o) <> json_type_object ->
  get_user_credentials lib h creds s = Ret (2%Z, creds).
Proof.
  intros Hp Ht. rewrite get_user_credentials_eq, Hp.
  destruct o; try reflexivity. contradiction.
Qed.

Lemma loader_top_level_not_object_witness :
  get_user_credentials SampleTokener.lib Sample.roomy Sample.previous
    (lit "[1, 2]") = Ret (2%Z, Sample.previous).
Proof.
  apply (loader_top_level_not_object SampleTokener.lib Sample.roomy
           Sample.previous (lit "[1, 2]")
           (jso_array [Some (jso_int 1); Some (jso_int 2)])).
  - reflexivity.
  - discriminate.
Defined.

(** X12.  Of a document the loader looks at the members 'user' and 'token'
    and at nothing else: two documents whose objects agree on these two
    give the same code and the same credentials, whatever other members
    they hold and in whatever order. *)
Theorem loader_looks_at_two_members (lib : JsonC) (h : Heap)
  (creds : Credentials) (s1 s2 : list char) (o1 o2 : json_object) :
  json_tokener_parse lib s1 = Some o1 ->
  json_tokener_parse lib s2 = Some o2 ->
  json_object_object_get (Some o1) (lit "user") =
    json_object_object_get (Some o2) (lit "user") ->
  json_object_object_get (Some o1) (lit "token") =
    json_object_object_get (Some o2) (lit "token") ->
  get_user_credentials lib h creds s1 = get_user_credentials lib h creds s2.
Proof.
  intros H1 H2 Hu Ht. rewrite !get_user_credentials_eq, H1, H2.
  unfold string_value. rewrite Hu, Ht. reflexivity.
Qed.

Lemma loader_looks_at_two_members_witness :
  get_user_credentials SampleTokener.lib Sample.roomy Sample.blank
    Sample.good_credentials =
  get_user_credentials SampleTokener.lib Sample.roomy Sample.blank
    (lit "{" ++ SampleTokener.quoted "token" ++ lit ":"
       ++ SampleTokener.quoted "s3cr3t" ++ lit ", "
       ++ SampleTokener.quoted "extra" ++ lit ": [1, null], "
       ++ SampleTokener.quoted "user" ++ lit ":"
       ++ SampleTokener.quoted "ci" ++ lit "}").
Proof.
  apply (loader_looks_at_two_members SampleTokener.lib Sample.roomy
           Sample.blank Sample.good_credentials _
           (jso_object
              [(lit "user", Some (jso_string (lit "ci")));
               (lit "token", Some (jso_string (lit "s3cr3t")))])
           (jso_object
              [(lit "token", Some (jso_string (lit "s3cr3t")));
               (lit "extra", Some (jso_array [Some (jso_int 1); None]));
               (lit "user", Some (jso_string (lit "ci")))]));
    reflexivity.
Defined.

(** X13.  The loader returns 0 only for an object whose 'user' and 'token'
    are both strings, and what it then stores in a field is the part of the
    value before its first NUL, so a stored field never holds a NUL, and
    nothing of the caller's earlier credentials is left. *)
Theorem loader_success (lib : JsonC) (h : Heap) (creds creds' : Credentials)
  (s : list char) :
  get_user_credentials lib h creds s = Ret (0%Z, creds') ->
  exists (object : json_object) (u t : list char),
    json_tokener_parse lib s = Some object /\
    string_value object (lit "user") = Some u /\
    string_value object (lit "token") = Some t /\
    (forall x, user creds' = Some x -> x = c_str u /\ nul_free x = true) /\
    (forall x, token creds' = Some x -> x = c_str t /\ nul_free x = true).
Proof.
  rewrite get_user_credentials_eq. intros E.
  destruct (json_tokener_parse lib s) as [object|]; [|discriminate].
  destruct (string_value object (lit "user")) as [u|] eqn:Eu; [|discriminate].
  destruct (string_value object (lit "token")) as [t|] eqn:Et; [|discriminate].
  injection E as <-. exists object, u, t. repeat split; auto; cbn in *.
  - destruct (malloc_ok h (strlen u + 1)); congruence.
  - destruct (malloc_ok h (strlen u + 1)); [|discriminate].
    injection H as <-. apply c_str_nul_free.
  - destruct (malloc_ok h (strlen t + 1)); congruence.
  - destruct (malloc_ok h (strlen t + 1)); [|discriminate].
    injection H as <-. apply c_str_nul_free.
Qed.

Lemma loader_success_witness :
  exists (object : json_object) (u t : list char),
    json_tokener_parse SampleTokener.lib Sample.nul_in_user = Some object /\
    string_value object (lit "user") = Some u /\
    string_value object (lit "token") = Some t /\
    (forall x, Some (lit "a") = Some x -> x = c_str u /\ nul_free x = true) /\
    (forall x, Some (lit "t") = Some x -> x = c_str t /\ nul_free x = true).
Proof.
  apply (loader_success SampleTokener.lib Sample.roomy Sample.previous
           {| user := Some (lit "a"); token := Some (lit "t") |}
           Sample.nul_in_user).
  reflexivity.
Defined.

(** ** URL construction, further *)

(** X14.  For one host, two project names that differ give URLs that
    differ. *)
Theorem get_project_url_owned_injective (h : Heap)
  (host p q : list char) (url : list char) :
  nul_free p = true -> nul_free q = true ->
  get_project_url_owned h host p = Ret (Some url) ->
  get_project_url_owned h host q = Ret (Some url) ->
  p = q.
Proof.
  intros Hp Hq. rewrite !get_project_url_owned_eq.
  rewrite (c_str_id p Hp), (c_str_id q Hq).
  destruct (malloc_ok h _); [|discriminate].
  destruct (malloc_ok h _); [|discriminate].
  intros E1 E2. injection E1 as E1. injection E2 as E2.
  rewrite <- E2 in E1. apply app_inv_tail in E1.
  unfold url_by_concatenation in E1.
  apply app_inv_head in E1. apply app_inv_head in E1.
  now apply app_inv_tail in E1.
Qed.

Lemma get_project_url_owned_injective_witness : lit "foo" = lit "foo".
Proof.
  exact (get_project_url_owned_injective Sample.roomy
           (lit "http://ci.example.com") (lit "foo") (lit "foo")
           (lit "http://ci.example.com/job/foo/build" ++ [NUL])
           eq_refl eq_refl eq_refl eq_refl).
Defined.

(** X15.  Nothing in a project name is escaped, a slash least of all: the
    job q under the host h/job/p and the job p/job/q under the host h get
    the same URL. *)
Theorem get_project_url_owned_nested (h : Heap) (host p q : list char) :
  nul_free host = true -> nul_free p = true -> nul_free q = true ->
  get_project_url_owned h (host ++ lit "/job/" ++ p) q =
  get_project_url_owned h host (p ++ lit "/job/" ++ q).
Proof.
  intros Hh Hp Hq. rewrite !get_project_url_owned_eq. unfold strlen.
  rewrite !c_str_id
    by (rewrite ?nul_free_app, ?Hh, ?Hp, ?Hq; reflexivity).
  rewrite !length_app. cbn [length lit list_ascii_of_string].
  replace (length host + (5 + length p) + 5 + length q + 6 + 1)
    with (length host + 5 + (length p + (5 + length q)) + 6 + 1) by lia.
  unfold url_by_concatenation. rewrite <- !app_assoc. reflexivity.
Qed.

Lemma get_project_url_owned_nested_witness :
  get_project_url_owned Sample.roomy (lit "http://ci/job/folder") (lit "app")
  = get_project_url_owned Sample.roomy (lit "http://ci") (lit "folder/job/app").
Proof.
  exact (get_project_url_owned_nested Sample.roomy (lit "http://ci")
           (lit "folder") (lit "app") eq_refl eq_refl eq_refl).
Defined.
